(** * AI Data Visualization Agent: the code-generation-to-execution pipeline

    A shallow embedding of [ai_data_visualisation_agent.py]:
    - [Re]: the fragment of Python's [re] engine that the module-level
      [pattern] uses (literal runs and one lazy DOTALL capture group);
    - [match_code_blocks], [code_interpret], [chat_with_llm],
      [upload_dataset] and [main], written in a small state-and-exception
      monad over a trace of observable actions;
    - the result classification chain of [main].

    Python [str] values are modelled as [string].  Every character the
    pattern names is ASCII, and [.] under DOTALL accepts any character, so
    matching over the UTF-8 bytes of a text and matching over its code points
    select the same segment. *)

From Stdlib Require Import Ascii.
From stdpp Require Import base option strings list gmap.

(** ** Strings *)

Definition nl : string := String "010" "".

(** ** The regular-expression fragment *)

Module Re.

(** Nodes of a compiled pattern.  [LITERAL] is a run of literal
    characters; [GROUP_MIN_REPEAT_ANY] is a capture group holding the lazy
    [.*?], where [re.DOTALL] lets [.] accept every character, the newline
    included. *)
Inductive node : Type :=
| LITERAL (s : string)
| GROUP_MIN_REPEAT_ANY.

Definition regex : Type := list node.

(** Consume [p] at the head of [s] and return what follows. *)
Fixpoint literal (p s : string) : option string :=
  match p, s with
  | "", _ => Some s
  | String a p', String b s' =>
      if decide (a = b) then literal p' s' else None
  | String _ _, "" => None
  end.

(** The lazy repeat: try the rest of the pattern [k] first, and take one
    more character only when that fails.  The result is the captured text
    together with the captures of [k]. *)
Fixpoint min_repeat_any (k : string → option (list string)) (s : string)
  : option (string * list string) :=
  match k s with
  | Some gs => Some ("", gs)
  | None =>
      match s with
      | "" => None
      | String c s' =>
          '(g, gs) ← min_repeat_any k s'; Some (String c g, gs)
      end
  end.

(** Anchored backtracking match; the result lists the captured groups. *)
Fixpoint match_here (re : regex) (s : string) : option (list string) :=
  match re with
  | [] => Some []
  | LITERAL p :: re' => s' ← literal p s; match_here re' s'
  | GROUP_MIN_REPEAT_ANY :: re' =>
      '(g, gs) ← min_repeat_any (match_here re') s; Some (g :: gs)
  end.

(** [Pattern.search]: the leftmost start offset at which the pattern
    matches, offsets tried from 0 up to the length of the text. *)
Fixpoint search (re : regex) (s : string) : option (list string) :=
  match match_here re s with
  | Some gs => Some gs
  | None =>
      match s with
      | "" => None
      | String _ s' => search re s'
      end
  end.

(** [Match.group(n)] for [n ≥ 1]; a group that does not exist raises in
    Python, which [None] stands for. *)
Definition group (n : nat) (m : list string) : option string :=
  match n with
  | 0 => None
  | S i => m !! i
  end.

End Re.

(** ** Line 22: [pattern] *)

Definition fence_open : string := "```python" +:+ nl.
Definition fence_close : string := nl +:+ "```".

Definition pattern : Re.regex :=
  [Re.LITERAL fence_open; Re.GROUP_MIN_REPEAT_ANY; Re.LITERAL fence_close].

(** ** Lines 51-54: [match_code_blocks] *)

Definition match_code_blocks (llm_response : string) : string :=
  match Re.search pattern llm_response with
  | Some m => default "" (Re.group 1 m)
  | None => ""
  end.

(** ** Fenced blocks

    A python-tagged fenced block of a text: the opening fence
    [```python] closed by a newline, the interior, then a newline and the
    closing fence [```].  [pre] is what the text holds before the opening
    fence and [post] what it holds after the closing one. *)
Definition fenced_block (text pre body post : string) : Prop :=
  text = pre +:+ fence_open +:+ body +:+ fence_close +:+ post.

Definition has_fenced_block (text : string) : Prop :=
  ∃ pre body post, fenced_block text pre body post.

(** The first block: no block opens earlier, and of the blocks that open at
    the same place none closes earlier. *)
Definition first_fenced_block (text pre body post : string) : Prop :=
  fenced_block text pre body post ∧
  ∀ pre' body' post', fenced_block text pre' body' post' →
    String.length pre < String.length pre' ∨
    (pre' = pre ∧ String.length body ≤ String.length body').

(** ** Python values and sandbox results *)

(** Attribute values, as far as the program looks at them: it asks whether
    an attribute exists and, for [png] only, whether its value is truthy.
    [VObject h t] is an object known by a handle, with the truth value [t]
    that its class gives it. *)
Inductive value : Type :=
| VNone
| VStr (s : string)
| VBool (b : bool)
| VInt (z : Z)
| VObject (h : positive) (t : bool).

Definition truthy (v : value) : bool :=
  match v with
  | VNone => false
  | VStr s => bool_decide (s ≠ "")
  | VBool b => b
  | VInt z => bool_decide (z ≠ 0%Z)
  | VObject _ t => t
  end.

(** The class of a result, as far as [isinstance] on line 164 tells. *)
Inductive pyclass : Type := PdDataFrame | PdSeries | OtherClass.

(** One item of [exec.results]: an object with named attributes. *)
Record Result : Type := {
  attrs : gmap string value;
  class_of : pyclass;
}.

Definition hasattr (result : Result) (name : string) : bool :=
  bool_decide (is_Some (attrs result !! name)).

(** Attribute read; used only where [hasattr] has answered [true]. *)
Definition getattr (result : Result) (name : string) : value :=
  default VNone (attrs result !! name).

Definition isinstance_tabular (result : Result) : bool :=
  match class_of result with
  | PdDataFrame | PdSeries => true
  | OtherClass => false
  end.

(** [ExecutionError] of the sandbox client. *)
Record ExecutionError : Type := {
  name : string;
  value_ : string;
  traceback : string;
}.

(** [Execution]: what [run_code] returns; the program reads [results] and
    [error] only. *)
Record Execution : Type := {
  results : list Result;
  error : option ExecutionError;
}.

(** Chat messages and the completion response. *)
Record ChatMessage : Type := {
  role : string;
  content : string;
}.

(** [response.choices]: per choice, [message.content], which the client
    types as optional. *)
Definition ChatCompletion : Type := list (option string).

Record UploadedFile : Type := {
  file_name : string;
  file_bytes : string;
}.

(** Python exceptions: the class name and [str(error)]. *)
Record exn : Type := {
  exn_class : string;
  exn_str : string;
}.

Inductive outcome (A : Type) : Type :=
| Return (a : A)
| Raise (e : exn).
Arguments Return {A} a.
Arguments Raise {A} e.

Inductive stream : Type := sys_stdout | sys_stderr.

(** The rendering categories that the chain of lines 156-167 separates. *)
Inductive category : Type :=
| image | figure | interactiveChart | tabular | raw.

(** Lines 156-166: the probes, in the order of the [if]/[elif] chain. *)
Definition classify (result : Result) : category :=
  if hasattr result "png" && truthy (getattr result "png") then image
  else if hasattr result "figure" then figure
  else if hasattr result "show" then interactiveChart
  else if isinstance_tabular result then tabular
  else raw.

(** Lines 118-123: [model_options]. *)
Definition model_options : gmap string string :=
  <["Meta-Llama 3.1 405B" := "meta-llama/Meta-Llama-3.1-405B-Instruct-Turbo"]>
  (<["DeepSeek V3" := "deepseek-ai/DeepSeek-V3"]>
  (<["Qwen 2.5 7B" := "Qwen/Qwen2.5-7B-Instruct-Turbo"]>
  (<["Meta-Llama 3.3 70B" := "meta-llama/Llama-3.3-70B-Instruct-Turbo"]> ∅))).

(** [dict.setdefault(key, v)] on the mapping. *)
Definition dict_setdefault (key v : string) (d : gmap string string)
  : gmap string string :=
  match d !! key with
  | Some _ => d
  | None => <[key := v]> d
  end.

(** Lines 59-62: the f-string of [chat_with_llm]. *)
Definition system_prompt (dataset_path : string) : string :=
  "You're a Python data scientist and data visualization expert." +:+ nl +:+
  "You are given a dataset at path '" +:+ dataset_path +:+
  "' and also the user's query." +:+ nl +:+
  "You need to analyze the dataset and answer the user's query with a response and you run Python code to solve them." +:+ nl +:+
  "IMPORTANT: Always use the dataset path variable '" +:+ dataset_path +:+
  "' in your code when reading the CSV file.".

(** Lines 64-67: [messages]. *)
Definition chat_messages (user_message dataset_path : string)
  : list ChatMessage :=
  [ {| role := "system"; content := system_prompt dataset_path |};
    {| role := "user"; content := user_message |} ].

(** ** The environment of the program

    What the program calls and does not define: the two remote services
    (the sandbox and the completion service, whose joint state is [world]),
    and the pure library functions of pandas, PIL and base64 that [main]
    uses.  A service call may raise instead of answering. *)
Class Environment : Type := {
  world : Type;
  DataFrame : Type;
  Image : Type;
  (** [f"{exec.error}"] *)
  execution_error_str : ExecutionError → string;
  (** [pd.read_csv] and [df.head()] *)
  read_csv : UploadedFile → outcome DataFrame;
  df_head : DataFrame → DataFrame;
  (** [Image.open(BytesIO(base64.b64decode(png)))] *)
  image_open_b64decode : value → outcome Image;
  (** [Sandbox(api_key=...)] entered and left as a context manager *)
  sandbox_enter : string → world → outcome () * world;
  sandbox_exit : world → outcome () * world;
  (** [code_interpreter.files.write(path, file)] *)
  files_write : string → UploadedFile → world → outcome () * world;
  (** [e2b_code_interpreter.run_code(code)]: the text written to the
      process's [sys.stdout] and [sys.stderr] while the call runs, and the
      returned [Execution] *)
  run_code : string → world → outcome (string * string * Execution) * world;
  (** [Together(api_key=...).chat.completions.create(model=..., messages=...)] *)
  completions_create :
    string → string → list ChatMessage → world → outcome ChatCompletion * world;
}.

Section Agent.
Context `{Environment}.

(** What an observer of one run sees, in order: Streamlit calls, writes
    to the process's own streams, and calls to the two services. *)
Inductive event : Type :=
| StTitle (body : string)
| StHeader (body : string)
| StSubheader (body : string)
| StWrite (body : string)
| StInfo (body : string)
| StMarkdown (body : string)
| StError (body : string)
| StWarning (body : string)
| StSpinner (text : string)
| StDataframe (df : DataFrame)
| StImage (img : Image) (caption : string)
| StPyplot (fig : value)
| StPlotlyChart (result : Result)
| StDataframeResult (result : Result)
| StWriteResult (result : Result)
| Print (file : stream) (text : string)
| SandboxEnter (api_key : string)
| SandboxExit
| FilesWrite (path : string) (data : UploadedFile)
| RunCode (code : string)
| CompletionsCreate (api_key model : string) (messages : list ChatMessage).

(** The calls that leave the process. *)
Definition external (e : event) : bool :=
  match e with
  | SandboxEnter _ | SandboxExit | FilesWrite _ _ | RunCode _
  | CompletionsCreate _ _ _ => true
  | _ => false
  end.

(** [st.session_state] and the state of the services. *)
Record state : Type := {
  session_state : gmap string string;
  outside : world;
}.

(** A computation: from a state to the events it emits, the state it
    leaves, and a value or an exception. *)
Definition M (A : Type) : Type := state → list event * state * outcome A.

#[global] Instance M_ret : MRet M := λ A a st, ([], st, Return a).

#[global] Instance M_bind : MBind M := λ A B f m st,
  match m st with
  | (tr, st', Return a) =>
      match f a st' with (tr', st'', o) => (tr ++ tr', st'', o) end
  | (tr, st', Raise e) => (tr, st', Raise e)
  end.

#[global] Instance M_throw : MThrow exn M := λ A e st, ([], st, Raise e).

Definition emit (e : event) : M () := λ st, ([e], st, Return ()).

(** A pure library call that may raise. *)
Definition lift {A} (o : outcome A) : M A := λ st, ([], st, o).

(** A service call: logged, then answered by the environment. *)
Definition call {A} (e : event) (f : world → outcome A * world) : M A :=
  λ st,
    match f (outside st) with
    | (o, w) => ([e], {| session_state := session_state st; outside := w |}, o)
    end.

(** [try: m  finally: fin]. *)
Definition finally {A} (m : M A) (fin : M ()) : M A := λ st,
  match m st with
  | (tr, st', o) =>
      match fin st' with
      | (tr', st'', Return _) => (tr ++ tr', st'', o)
      | (tr', st'', Raise e) => (tr ++ tr', st'', Raise e)
      end
  end.

(** [try: m  except Exception as error: handler(error)]. *)
Definition try_except {A} (m : M A) (handler : exn → M A) : M A := λ st,
  match m st with
  | (tr, st', Return a) => (tr, st', Return a)
  | (tr, st', Raise e) =>
      match handler e st' with (tr', st'', o) => (tr ++ tr', st'', o) end
  end.

(** [print(text, file=f)]: the text and the newline that [print] adds. *)
Definition print (text : string) (file : stream) : M () :=
  emit (Print file (text +:+ nl)).

(** Attribute access on [st.session_state]. *)
Definition session_get (key : string) : M string := λ st,
  match session_state st !! key with
  | Some v => ([], st, Return v)
  | None =>
      ([], st, Raise {| exn_class := "AttributeError"; exn_str := key |})
  end.

Definition session_set (key v : string) : M () := λ st,
  ([], {| session_state := <[key := v]> (session_state st);
          outside := outside st |}, Return ()).

(** [st.session_state.setdefault(key, v)], its result dropped. *)
Definition session_setdefault (key v : string) : M () := λ st,
  ([], {| session_state := dict_setdefault key v (session_state st);
          outside := outside st |}, Return ()).

Definition when (b : bool) (m : M ()) : M () := if b then m else mret ().

(** Truth value of a [str]. *)
Definition nonempty (s : string) : bool := bool_decide (s ≠ "").

(** *** Lines 25-48: [code_interpret] *)
Definition code_interpret (code : string) : M (option (list Result)) :=
  emit (StSpinner "Executing code in E2B sandbox...");;
  '(stdout_capture, stderr_capture, exec) ← call (RunCode code) (run_code code);
  when (nonempty stderr_capture)
    (print "[Code Interpreter Warnings/Errors]" sys_stderr;;
     print stderr_capture sys_stderr);;
  when (nonempty stdout_capture)
    (print "[Code Interpreter Output]" sys_stdout;;
     print stdout_capture sys_stdout);;
  match error exec with
  | Some e =>
      print ("[Code Interpreter ERROR] " +:+ execution_error_str e) sys_stderr;;
      mret None
  | None => mret (Some (results exec))
  end.

(** *** Lines 57-84: [chat_with_llm] *)
Definition chat_with_llm (user_message dataset_path : string)
  : M (option (list Result) * string) :=
  let messages := chat_messages user_message dataset_path in
  emit (StSpinner "Getting response from Together AI LLM model...");;
  api_key ← session_get "together_api_key";
  model ← session_get "model_name";
  response ← call (CompletionsCreate api_key model messages)
                  (completions_create api_key model messages);
  response_message ←
    match response with
    | m :: _ => mret m
    | [] => mthrow {| exn_class := "IndexError";
                      exn_str := "list index out of range" |}
    end;
  response_content ←
    match response_message with
    | Some text => mret text
    | None => mthrow {| exn_class := "TypeError";
                        exn_str := "expected string or bytes-like object" |}
    end;
  let python_code := match_code_blocks response_content in
  if nonempty python_code then
    code_results ← code_interpret python_code;
    mret (code_results, response_content)
  else
    emit (StWarning "No Python code block detected in LLM response.");;
    mret (None, response_content).

(** *** Lines 87-95: [upload_dataset] *)
Definition upload_dataset (uploaded_file : UploadedFile) : M string :=
  let dataset_path := "./" +:+ file_name uploaded_file in
  try_except
    (call (FilesWrite dataset_path uploaded_file)
          (files_write dataset_path uploaded_file);;
     mret dataset_path)
    (λ error,
       emit (StError ("Error during file upload: " +:+ exn_str error));;
       mthrow error).

(** *** Lines 155-167: one turn of the [for] loop *)
Definition display (result : Result) : M () :=
  match classify result with
  | image =>
      img ← lift (image_open_b64decode (getattr result "png"));
      emit (StImage img "Generated Visualization")
  | figure => emit (StPyplot (getattr result "figure"))
  | interactiveChart => emit (StPlotlyChart result)
  | tabular => emit (StDataframeResult result)
  | raw => emit (StWriteResult result)
  end.

Fixpoint for_each {A} (body : A → M ()) (xs : list A) : M () :=
  match xs with
  | [] => mret ()
  | x :: xs' => body x;; for_each body xs'
  end.

(** Truth value of [code_results] on line 154. *)
Definition results_truthy (code_results : option (list Result)) : bool :=
  match code_results with
  | Some (_ :: _) => true
  | _ => false
  end.

(** What the widgets of one script run return. *)
Record widgets : Type := {
  together_api_key_input : string;
  e2b_api_key_input : string;
  selected_model : string;
  uploaded : option UploadedFile;
  show_full_dataset : bool;
  query_text : string;
  analyze_pressed : bool;
}.

(** [with Sandbox(api_key=...) as code_interpreter: body]. *)
Definition with_sandbox {A} (api_key : string) (body : M A) : M A :=
  call (SandboxEnter api_key) (sandbox_enter api_key);;
  finally body (call SandboxExit sandbox_exit).

(** *** Lines 144-167: the body of [if st.button("Analyze")] *)
Definition analyze (uploaded_file : UploadedFile) (query : string) : M () :=
  together_api_key ← session_get "together_api_key";
  missing ←
    (if nonempty together_api_key then
       e2b_api_key ← session_get "e2b_api_key";
       mret (negb (nonempty e2b_api_key))
     else mret true);
  if (missing : bool) then
    emit (StError "Please enter both API keys in the sidebar.")
  else
    e2b_api_key ← session_get "e2b_api_key";
    with_sandbox e2b_api_key
      (dataset_path ← upload_dataset uploaded_file;
       '(code_results, llm_response) ← chat_with_llm query dataset_path;
       emit (StSubheader "AI Response:");;
       emit (StWrite llm_response);;
       when (results_truthy code_results)
         (for_each display (default [] code_results))).

(** *** Lines 98-167: [main] *)
Definition main (ui : widgets) : M () :=
  emit (StTitle "📊 AI Data Visualization Agent");;
  emit (StWrite "Upload your dataset and ask questions about it!");;
  session_setdefault "together_api_key" "";;
  session_setdefault "e2b_api_key" "";;
  session_setdefault "model_name" "";;
  emit (StHeader "API Keys and Model Configuration");;
  session_set "together_api_key" (together_api_key_input ui);;
  emit (StInfo "💡 Everyone gets a free $1 credit by Together AI");;
  emit (StMarkdown "[Get Together AI API Key](https://api.together.ai/signin)");;
  session_set "e2b_api_key" (e2b_api_key_input ui);;
  emit (StMarkdown "[Get E2B API Key](https://e2b.dev/docs/legacy/getting-started/api-key)");;
  model_name ←
    match model_options !! selected_model ui with
    | Some m => mret m
    | None => mthrow {| exn_class := "KeyError";
                        exn_str := selected_model ui |}
    end;
  session_set "model_name" model_name;;
  match uploaded ui with
  | None => mret ()
  | Some uploaded_file =>
      df ← lift (read_csv uploaded_file);
      emit (StWrite "Dataset:");;
      (if show_full_dataset ui then emit (StDataframe df)
       else
         emit (StWrite "Preview (first 5 rows):");;
         emit (StDataframe (df_head df)));;
      let query := query_text ui in
      when (analyze_pressed ui) (analyze uploaded_file query)
  end.

(** ** Observations on a run *)

Definition trace {A} (r : list event * state * outcome A) : list event :=
  r.1.1.
Definition final {A} (r : list event * state * outcome A) : state := r.1.2.
Definition result {A} (r : list event * state * outcome A) : outcome A :=
  r.2.

(** A state after a service call has answered. *)
Definition with_outside (st : state) (w : world) : state :=
  {| session_state := session_state st; outside := w |}.

(** What lines 36-42 write to the process's own streams. *)
Definition diagnostics (stdout_capture stderr_capture : string)
  : list event :=
  (if nonempty stderr_capture then
     [Print sys_stderr ("[Code Interpreter Warnings/Errors]" +:+ nl);
      Print sys_stderr (stderr_capture +:+ nl)]
   else []) ++
  (if nonempty stdout_capture then
     [Print sys_stdout ("[Code Interpreter Output]" +:+ nl);
      Print sys_stdout (stdout_capture +:+ nl)]
   else []).

(** What lines 44-48 write and return. *)
Definition error_report (exec : Execution) : list event :=
  match error exec with
  | Some e =>
      [Print sys_stderr
         (("[Code Interpreter ERROR] " +:+ execution_error_str e) +:+ nl)]
  | None => []
  end.

Definition returned_results (exec : Execution) : option (list Result) :=
  match error exec with
  | Some _ => None
  | None => Some (results exec)
  end.

(** The Streamlit call that shows a result, by category. *)
Definition rendered_as (e : event) : option category :=
  match e with
  | StImage _ _ => Some image
  | StPyplot _ => Some figure
  | StPlotlyChart _ => Some interactiveChart
  | StDataframeResult _ => Some tabular
  | StWriteResult _ => Some raw
  | _ => None
  end.

(** The path that a file write uses and the path that the messages of a
    completion request carry are both [path]. *)
Definition path_consistent (path query : string) (e : event) : Prop :=
  match e with
  | FilesWrite p _ => p = path
  | CompletionsCreate _ _ messages => messages = chat_messages query path
  | _ => True
  end.

(** A small program logic: every event of [m] satisfies [P], and a
    returned value satisfies [Q], from whatever state [m] starts. *)
Definition satisfies {A} (m : M A) (P : event → Prop) (Q : A → Prop) : Prop :=
  ∀ st, Forall P (trace (m st)) ∧ ∀ a, result (m st) = Return a → Q a.

(** ** Observations on a run of [main] *)

(** Lines 148-167: the body of the [with] statement of [main]. *)
Definition in_sandbox (uploaded_file : UploadedFile) (query : string) : M () :=
  dataset_path ← upload_dataset uploaded_file;
  '(code_results, llm_response) ← chat_with_llm query dataset_path;
  emit (StSubheader "AI Response:");;
  emit (StWrite llm_response);;
  when (results_truthy code_results)
    (for_each display (default [] code_results)).

(** The two events of the [with] statement. *)
Definition session_event (e : event) : bool :=
  match e with
  | SandboxEnter _ | SandboxExit => true
  | _ => false
  end.

(** What lines 100-116 show, whatever the widgets return. *)
Definition sidebar_events : list event :=
  [StTitle "📊 AI Data Visualization Agent";
   StWrite "Upload your dataset and ask questions about it!";
   StHeader "API Keys and Model Configuration";
   StInfo "💡 Everyone gets a free $1 credit by Together AI";
   StMarkdown "[Get Together AI API Key](https://api.together.ai/signin)";
   StMarkdown "[Get E2B API Key](https://e2b.dev/docs/legacy/getting-started/api-key)"].

(** What lines 132-138 show of the data frame. *)
Definition preview_events (ui : widgets) (df : DataFrame) : list event :=
  StWrite "Dataset:" ::
  (if show_full_dataset ui then [StDataframe df]
   else [StWrite "Preview (first 5 rows):"; StDataframe (df_head df)]).

(** [st.session_state] once lines 104-115 have run, and once line 126 has
    stored the model. *)
Definition keyed (ui : widgets) (d : gmap string string)
  : gmap string string :=
  <["e2b_api_key" := e2b_api_key_input ui]>
  (<["together_api_key" := together_api_key_input ui]>
  (dict_setdefault "model_name" ""
  (dict_setdefault "e2b_api_key" ""
  (dict_setdefault "together_api_key" "" d)))).

Definition configured (ui : widgets) (model_name : string)
    (d : gmap string string) : gmap string string :=
  <["model_name" := model_name]> (keyed ui d).

Definition with_session (st : state) (d : gmap string string) : state :=
  {| session_state := d; outside := outside st |}.

(** The credentials and the model that a service call carries are those of
    the widgets. *)
Definition uses_inputs (ui : widgets) (e : event) : Prop :=
  match e with
  | SandboxEnter api_key => api_key = e2b_api_key_input ui
  | CompletionsCreate api_key model _ =>
      api_key = together_api_key_input ui ∧
      model_options !! selected_model ui = Some model
  | _ => True
  end.

(** A second program logic, for what runs once the session is set up: from
    a state whose session satisfies [J], every event of [m] satisfies [P]
    and [m] leaves the session as it found it. *)
Definition keeps {A} (J : gmap string string → Prop) (P : event → Prop)
    (m : M A) : Prop :=
  ∀ st, J (session_state st) →
        Forall P (trace (m st)) ∧
        session_state (final (m st)) = session_state st.

End Agent.

(** ** The capabilities that the classification probes *)

Definition has_png_payload (result : Result) : Prop :=
  ∃ v, attrs result !! "png" = Some v ∧ truthy v = true.
Definition has_figure_handle (result : Result) : Prop :=
  is_Some (attrs result !! "figure").
Definition has_show_capability (result : Result) : Prop :=
  is_Some (attrs result !! "show").
Definition is_tabular_value (result : Result) : Prop :=
  class_of result = PdDataFrame ∨ class_of result = PdSeries.

(** ** A small concrete environment

    The sandbox remembers the paths written to it; the completion service
    answers with the text of the last message it is sent; running code
    yields an [Execution] read off the code. *)
Module Sample.

Definition zero_division : ExecutionError :=
  {| name := "ZeroDivisionError"; value_ := "division by zero";
     traceback := "" |}.

Definition failing_code : string := "print('partial')" +:+ nl +:+ "1/0".

Definition chart : Result :=
  {| attrs := <["png" := VStr "iVBORw0KGgo="]> (<["show" := VObject 1 true]> ∅);
     class_of := OtherClass |}.

(** An object whose [png] is the empty text and whose [figure] and [show]
    are [None]. *)
Definition blank_figure : Result :=
  {| attrs := <["png" := VStr ""]> (<["figure" := VNone]>
              (<["show" := VNone]> ∅));
     class_of := PdDataFrame |}.

Definition run (code : string) : string * string * Execution :=
  if decide (code = failing_code) then
    ("partial", "", {| results := []; error := Some zero_division |})
  else if decide (code = "print(1+1)") then
    ("2", "", {| results := []; error := None |})
  else ("", "", {| results := [chart]; error := None |}).

Definition last_content (messages : list ChatMessage) : string :=
  default "" (content <$> last messages).

#[local] Instance env : Environment := {|
  world := list string;
  DataFrame := string;
  Image := string;
  execution_error_str e := name e +:+ ": " +:+ value_ e;
  read_csv f := Return (file_bytes f);
  df_head df := df;
  image_open_b64decode v :=
    match v with
    | VStr s => Return s
    | _ => Raise {| exn_class := "TypeError"; exn_str := "" |}
    end;
  sandbox_enter _ w := (Return (), w);
  sandbox_exit w := (Return (), w);
  files_write path _ w := (Return (), path :: w);
  run_code code w := (Return (run code), w);
  completions_create _ _ messages w := (Return [Some (last_content messages)], w);
|}.

Definition fenced (code : string) : string :=
  "```python" +:+ nl +:+ code +:+ nl +:+ "```".

Definition two_blocks : string :=
  "First:" +:+ nl +:+ fenced "a = 1" +:+ nl +:+ "then:" +:+ nl +:+
  fenced "b = 2" +:+ nl.

Definition other_language : string :=
  "```javascript" +:+ nl +:+ "let a = 1;" +:+ nl +:+ "```".

Definition untagged : string :=
  "```" +:+ nl +:+ "a = 1" +:+ nl +:+ "```".

Definition data_csv : UploadedFile :=
  {| file_name := "data.csv"; file_bytes := "a,b" |}.

Definition session : gmap string string :=
  <["together_api_key" := "tk"]> (<["e2b_api_key" := "ek"]>
  (<["model_name" := "deepseek-ai/DeepSeek-V3"]> ∅)).

Definition st0 : state := {| session_state := session; outside := [] |}.

Definition ui (together e2b query : string) : widgets :=
  {| together_api_key_input := together;
     e2b_api_key_input := e2b;
     selected_model := "DeepSeek V3";
     uploaded := Some data_csv;
     show_full_dataset := false;
     query_text := query;
     analyze_pressed := true |}.

End Sample.

(** ** A concrete environment with failures

    As [Sample.env], but the services fail on chosen arguments: the sandbox
    refuses the key [revoked], a write to [./locked.csv] and a run of [hang]
    raise, and the completion service raises for the key [expired], answers
    without a choice for the model [silent] and with a choice without
    content for the model [mute]. *)
Module Faulty.

Definition raised (class : string) : exn :=
  {| exn_class := class; exn_str := class +:+ " raised" |}.

#[local] Instance env : Environment := {|
  world := list string;
  DataFrame := string;
  Image := string;
  execution_error_str e := name e +:+ ": " +:+ value_ e;
  read_csv f :=
    if decide (file_bytes f = "") then Raise (raised "EmptyDataError")
    else Return (file_bytes f);
  df_head df := df;
  image_open_b64decode v :=
    match v with
    | VStr s => Return s
    | _ => Raise (raised "TypeError")
    end;
  sandbox_enter api_key w :=
    if decide (api_key = "revoked") then (Raise (raised "AuthenticationException"), w)
    else (Return (), w);
  sandbox_exit w := (Return (), w);
  files_write path _ w :=
    if decide (path = "./locked.csv") then (Raise (raised "SandboxException"), w)
    else (Return (), path :: w);
  run_code code w :=
    if decide (code = "hang") then (Raise (raised "TimeoutException"), w)
    else (Return (Sample.run code), w);
  completions_create api_key model messages w :=
    if decide (api_key = "expired") then (Raise (raised "AuthenticationError"), w)
    else if decide (model = "silent") then (Return [], w)
    else if decide (model = "mute") then (Return [None], w)
    else (Return [Some (Sample.last_content messages)], w);
|}.

Definition locked_csv : UploadedFile :=
  {| file_name := "locked.csv"; file_bytes := "a,b" |}.

Definition session (together e2b model : string) : gmap string string :=
  <["together_api_key" := together]> (<["e2b_api_key" := e2b]>
  (<["model_name" := model]> ∅)).

Definition st (together e2b model : string) : state :=
  {| session_state := session together e2b model; outside := [] |}.

(** A result whose [png] is truthy and is not a text. *)
Definition broken_image : Result :=
  {| attrs := <["png" := VObject 7 true]> ∅; class_of := OtherClass |}.

Definition ui (together e2b : string) (file : UploadedFile) (query : string)
  : widgets :=
  {| together_api_key_input := together;
     e2b_api_key_input := e2b;
     selected_model := "DeepSeek V3";
     uploaded := Some file;
     show_full_dataset := true;
     query_text := query;
     analyze_pressed := true |}.

End Faulty.

(** * Properties *)

(** ** Strings *)

Lemma string_app_cons (c : ascii) (s t : string) :
  String c s +:+ t = String c (s +:+ t).
Proof. reflexivity. Qed.

Lemma string_app_nil_l (s : string) : "" +:+ s = s.
Proof. reflexivity. Qed.

(** Two ways of cutting one text at the same offset are the same cut. *)
Lemma string_app_inj_length (p1 p2 r1 r2 : string) :
  p1 +:+ r1 = p2 +:+ r2 → String.length p1 = String.length p2 →
  p1 = p2 ∧ r1 = r2.
Proof.
  revert p2. induction p1 as [|c p1 IH]; intros [|d p2] Heq Hlen;
    cbn in Hlen; try done.
  rewrite !string_app_cons in Heq. injection Heq as -> Heq.
  destruct (IH p2 Heq) as [-> ->]; [lia|done].
Qed.

(** ** The matcher *)

Lemma literal_Some (p s r : string) :
  Re.literal p s = Some r ↔ s = p +:+ r.
Proof.
  revert s. induction p as [|a p IH]; intros s; cbn.
  - rewrite string_app_nil_l. split; congruence.
  - rewrite string_app_cons. destruct s as [|b s]; [done|].
    case_decide as Hab.
    + subst b. rewrite IH. split; congruence.
    + split; [done|]. intros [=]. done.
Qed.

Lemma literal_None (p s : string) :
  Re.literal p s = None ↔ ∀ r, s ≠ p +:+ r.
Proof.
  split.
  - intros Hn r Hr. apply literal_Some in Hr. congruence.
  - intros Hn. destruct (Re.literal p s) as [r|] eqn:E; [|done].
    apply literal_Some in E. by destruct (Hn r).
Qed.

(** The lazy repeat stops at a cut that the rest accepts, and at no
    shorter cut does the rest accept. *)
Lemma min_repeat_any_sound k (s g : string) (gs : list string) :
  Re.min_repeat_any k s = Some (g, gs) →
  ∃ r, s = g +:+ r ∧ k r = Some gs ∧
       ∀ g' r', s = g' +:+ r' → String.length g' < String.length g →
                k r' = None.
Proof.
  revert g. induction s as [|c s IH]; intros g; cbn.
  - destruct (k "") as [gs'|] eqn:Hk; [|done].
    intros [= <- <-]. exists "". repeat split; [done|]. cbn. lia.
  - destruct (k (String c s)) as [gs'|] eqn:Hk.
    { intros [= <- <-]. exists (String c s). repeat split; [done|].
      cbn. lia. }
    destruct (Re.min_repeat_any k s) as [[g0 gs0]|] eqn:Hrec; cbn; [|done].
    intros [= <- <-]. destruct (IH g0 eq_refl) as (r & Hs & Hr & Hmin).
    exists r. split; [by rewrite string_app_cons, <- Hs|]. split; [done|].
    intros g' r' Hcut Hlen. destruct g' as [|d g'].
    + rewrite string_app_nil_l in Hcut. by subst r'.
    + rewrite string_app_cons in Hcut. injection Hcut as <- Hcut.
      apply (Hmin g' r' Hcut). cbn in Hlen. lia.
Qed.

Lemma min_repeat_any_complete k (s g r : string) (gs : list string) :
  s = g +:+ r → k r = Some gs →
  (∀ g' r', s = g' +:+ r' → String.length g' < String.length g →
            k r' = None) →
  Re.min_repeat_any k s = Some (g, gs).
Proof.
  revert s. induction g as [|c g IH]; intros s Hs Hr Hmin.
  - rewrite string_app_nil_l in Hs. subst r. destruct s; cbn; by rewrite Hr.
  - rewrite string_app_cons in Hs. subst s. cbn.
    rewrite (Hmin "" (String c (g +:+ r))); [|done|cbn; lia].
    rewrite (IH (g +:+ r)); [done..|].
    intros g' r' Hcut Hlen. apply (Hmin (String c g') r').
    + by rewrite string_app_cons, Hcut.
    + cbn. lia.
Qed.

Lemma min_repeat_any_None k (s : string) :
  Re.min_repeat_any k s = None ↔ ∀ g r, s = g +:+ r → k r = None.
Proof.
  split.
  - revert s. induction s as [|c s IH]; cbn.
    + destruct (k "") eqn:Hk; [done|]. intros _ g r Hs.
      destruct g; [|done]. rewrite string_app_nil_l in Hs. by subst r.
    + destruct (k (String c s)) eqn:Hk; [done|].
      destruct (Re.min_repeat_any k s) as [[g0 gs0]|] eqn:Hrec; [done|].
      intros _ g r Hs. destruct g as [|d g].
      * rewrite string_app_nil_l in Hs. by subst r.
      * rewrite string_app_cons in Hs. injection Hs as <- Hs.
        by apply (IH eq_refl g r).
  - intros Hn. destruct (Re.min_repeat_any k s) as [[g gs]|] eqn:E; [|done].
    apply min_repeat_any_sound in E as (r & Hs & Hr & _).
    rewrite (Hn g r Hs) in Hr. done.
Qed.

(** [search] returns the match at the leftmost offset that has one. *)
Lemma search_sound re (s : string) (gs : list string) :
  Re.search re s = Some gs →
  ∃ pre r, s = pre +:+ r ∧ Re.match_here re r = Some gs ∧
           ∀ pre' r', s = pre' +:+ r' →
                      String.length pre' < String.length pre →
                      Re.match_here re r' = None.
Proof.
  induction s as [|c s IH]; cbn.
  - destruct (Re.match_here re "") as [gs'|] eqn:Hm; [|done].
    intros [= <-]. exists "", "". repeat split; [done|]. cbn. lia.
  - destruct (Re.match_here re (String c s)) as [gs'|] eqn:Hm.
    { intros [= <-]. exists "", (String c s). repeat split; [done|].
      cbn. lia. }
    intros Hrec. destruct (IH Hrec) as (pre & r & Hs & Hr & Hmin).
    exists (String c pre), r. split; [by rewrite string_app_cons, <- Hs|].
    split; [done|]. intros pre' r' Hcut Hlen.
    destruct pre' as [|d pre'].
    + rewrite string_app_nil_l in Hcut. by subst r'.
    + rewrite string_app_cons in Hcut. injection Hcut as <- Hcut.
      apply (Hmin pre' r' Hcut). cbn in Hlen. lia.
Qed.

Lemma search_complete re (s pre r : string) (gs : list string) :
  s = pre +:+ r → Re.match_here re r = Some gs →
  (∀ pre' r', s = pre' +:+ r' → String.length pre' < String.length pre →
              Re.match_here re r' = None) →
  Re.search re s = Some gs.
Proof.
  revert s. induction pre as [|c pre IH]; intros s Hs Hr Hmin.
  - rewrite string_app_nil_l in Hs. subst r. destruct s; cbn; by rewrite Hr.
  - rewrite string_app_cons in Hs. subst s. cbn.
    rewrite (Hmin "" (String c (pre +:+ r))); [|done|cbn; lia].
    apply (IH (pre +:+ r)); [done..|].
    intros pre' r' Hcut Hlen. apply (Hmin (String c pre') r').
    + by rewrite string_app_cons, Hcut.
    + cbn. lia.
Qed.

Lemma search_None re (s : string) :
  Re.search re s = None ↔ ∀ pre r, s = pre +:+ r → Re.match_here re r = None.
Proof.
  split.
  - induction s as [|c s IH]; cbn.
    + destruct (Re.match_here re "") eqn:Hm; [done|]. intros _ pre r Hs.
      destruct pre; [|done]. rewrite string_app_nil_l in Hs. by subst r.
    + destruct (Re.match_here re (String c s)) eqn:Hm; [done|].
      intros Hrec pre r Hs. destruct pre as [|d pre].
      * rewrite string_app_nil_l in Hs. by subst r.
      * rewrite string_app_cons in Hs. injection Hs as <- Hs.
        by apply (IH Hrec pre r).
  - intros Hn. destruct (Re.search re s) as [gs|] eqn:E; [|done].
    apply search_sound in E as (pre & r & Hs & Hr & _).
    rewrite (Hn pre r Hs) in Hr. done.
Qed.

(** ** The pattern of line 22 *)

Lemma match_here_literal (c x : string) (gs : list string) :
  Re.match_here [Re.LITERAL c] x = Some gs ↔ gs = [] ∧ ∃ post, x = c +:+ post.
Proof.
  cbn. destruct (Re.literal c x) as [post|] eqn:E; cbn.
  - apply literal_Some in E. split.
    + intros [= <-]. eauto.
    + by intros [-> _].
  - split; [done|]. intros [_ [post Hx]].
    apply literal_Some in Hx. congruence.
Qed.

Lemma match_here_literal_None (c x : string) :
  Re.match_here [Re.LITERAL c] x = None ↔ ∀ post, x ≠ c +:+ post.
Proof.
  cbn. destruct (Re.literal c x) as [post|] eqn:E; cbn.
  - apply literal_Some in E. split; [done|]. intros Hn. by destruct (Hn post).
  - split; [|done]. intros _. by apply literal_None.
Qed.

Lemma match_here_pattern_unfold (r : string) :
  Re.match_here pattern r =
  s ← Re.literal fence_open r;
  '(g, gs) ← Re.min_repeat_any (Re.match_here [Re.LITERAL fence_close]) s;
  Some (g :: gs).
Proof. reflexivity. Qed.

(** Anchored at an opening fence, the pattern captures up to the first
    closing fence that follows. *)
Lemma match_here_pattern_sound (r : string) (gs : list string) :
  Re.match_here pattern r = Some gs →
  ∃ body post,
    r = fence_open +:+ body +:+ fence_close +:+ post ∧ gs = [body] ∧
    ∀ body' post', r = fence_open +:+ body' +:+ fence_close +:+ post' →
                   String.length body ≤ String.length body'.
Proof.
  rewrite match_here_pattern_unfold.
  destruct (Re.literal fence_open r) as [s|] eqn:Hopen; [|done].
  apply literal_Some in Hopen. subst r. cbn [mbind option_bind].
  destruct (Re.min_repeat_any _ s) as [[g gs']|] eqn:Hrep; [|done].
  cbn. intros [= <-].
  apply min_repeat_any_sound in Hrep as (r & -> & Hr & Hmin).
  apply match_here_literal in Hr as [-> [post ->]].
  exists g, post. split; [done|]. split; [done|].
  intros body' post' Hcut. apply (inj (String.app fence_open)) in Hcut.
  destruct (decide (String.length body' < String.length g)) as [Hlt|]; [|lia].
  specialize (Hmin body' _ Hcut Hlt).
  by destruct (proj1 (match_here_literal_None _ _) Hmin post').
Qed.

Lemma match_here_pattern_complete (r body post : string) :
  r = fence_open +:+ body +:+ fence_close +:+ post →
  (∀ body' post', r = fence_open +:+ body' +:+ fence_close +:+ post' →
                  String.length body ≤ String.length body') →
  Re.match_here pattern r = Some [body].
Proof.
  intros -> Hmin. rewrite match_here_pattern_unfold.
  rewrite (proj2 (literal_Some _ _ _) eq_refl). cbn [mbind option_bind].
  rewrite (min_repeat_any_complete _ _ body (fence_close +:+ post) []);
    [done|done|by apply match_here_literal; eauto|].
  intros g' r' Hcut Hlen.
  apply match_here_literal_None. intros post' ->.
  specialize (Hmin g' post'). rewrite Hcut in Hmin.
  specialize (Hmin eq_refl). lia.
Qed.

Lemma match_here_pattern_None (r : string) :
  Re.match_here pattern r = None ↔
  ∀ body post, r ≠ fence_open +:+ body +:+ fence_close +:+ post.
Proof.
  split.
  - rewrite match_here_pattern_unfold. intros Hn body post ->.
    rewrite (proj2 (literal_Some _ _ _) eq_refl) in Hn.
    cbn [mbind option_bind] in Hn.
    destruct (Re.min_repeat_any _ _) as [[g gs]|] eqn:Hrep; [done|].
    rewrite min_repeat_any_None in Hrep.
    specialize (Hrep body _ eq_refl).
    by destruct (proj1 (match_here_literal_None _ _) Hrep post).
  - intros Hn. destruct (Re.match_here pattern r) as [gs|] eqn:E; [|done].
    apply match_here_pattern_sound in E as (body & post & -> & _).
    by destruct (Hn body post).
Qed.

(** [pattern.search] finds exactly the first fenced block. *)
Lemma search_pattern_first (text pre body post : string) :
  first_fenced_block text pre body post →
  Re.search pattern text = Some [body].
Proof.
  intros [Hblock Hfirst]. red in Hblock.
  apply (search_complete _ _ pre
           (fence_open +:+ body +:+ fence_close +:+ post)); [done| |].
  - apply (match_here_pattern_complete _ body post); [done|].
    intros body' post' Hcut.
    destruct (Hfirst pre body' post') as [?|[_ ?]]; [|lia|done].
    red. by rewrite Hblock, Hcut.
  - intros pre' r' Hcut Hlen. apply match_here_pattern_None.
    intros body' post' ->.
    destruct (Hfirst pre' body' post' Hcut) as [?|[-> _]]; lia.
Qed.

Lemma search_pattern_Some (text : string) (gs : list string) :
  Re.search pattern text = Some gs →
  ∃ pre body post, first_fenced_block text pre body post ∧ gs = [body].
Proof.
  intros Hs. apply search_sound in Hs as (pre & r & Htext & Hr & Hleft).
  apply match_here_pattern_sound in Hr as (body & post & -> & -> & Hmin).
  exists pre, body, post. split; [|done]. split; [done|].
  intros pre' body' post' Hblock. red in Hblock.
  destruct (decide (String.length pre < String.length pre')) as [|Hge];
    [by left|right].
  destruct (decide (String.length pre' < String.length pre)) as [Hlt|Hle].
  { specialize (Hleft pre' _ Hblock Hlt).
    rewrite match_here_pattern_None in Hleft.
    by destruct (Hleft body' post'). }
  destruct (string_app_inj_length pre pre'
              (fence_open +:+ body +:+ fence_close +:+ post)
              (fence_open +:+ body' +:+ fence_close +:+ post'))
    as [<- Hrest]; [congruence|lia|].
  split; [done|]. by apply (Hmin body' post').
Qed.

Lemma search_pattern_None (text : string) :
  Re.search pattern text = None ↔ ¬ has_fenced_block text.
Proof.
  rewrite search_None. split.
  - intros Hn (pre & body & post & Hblock). red in Hblock.
    specialize (Hn pre _ Hblock). rewrite match_here_pattern_None in Hn.
    by destruct (Hn body post).
  - intros Hn pre r ->. apply match_here_pattern_None. intros body post ->.
    apply Hn. by exists pre, body, post.
Qed.

(** A text with a fenced block has a first one, and it is unique. *)
Lemma first_fenced_block_exists (text : string) :
  has_fenced_block text →
  ∃ pre body post, first_fenced_block text pre body post.
Proof.
  intros Hb. destruct (Re.search pattern text) as [gs|] eqn:E.
  - apply search_pattern_Some in E as (pre & body & post & ? & _). eauto.
  - by apply search_pattern_None in E.
Qed.

Lemma first_fenced_block_unique (text pre1 body1 post1 pre2 body2 post2 : string) :
  first_fenced_block text pre1 body1 post1 →
  first_fenced_block text pre2 body2 post2 →
  pre1 = pre2 ∧ body1 = body2 ∧ post1 = post2.
Proof.
  intros [Hb1 Hf1] [Hb2 Hf2].
  destruct (Hf1 _ _ _ Hb2) as [Hlt|[-> Hle1]].
  { destruct (Hf2 _ _ _ Hb1) as [?|[-> _]]; lia. }
  destruct (Hf2 _ _ _ Hb1) as [?|[_ Hle2]]; [lia|].
  red in Hb1, Hb2. rewrite Hb1 in Hb2.
  apply (inj (String.app pre1)), (inj (String.app fence_open)) in Hb2.
  destruct (string_app_inj_length body1 body2 _ _ Hb2) as [-> Hrest]; [lia|].
  by apply (inj (String.app fence_close)) in Hrest as ->.
Qed.

(** ** Extraction: [match_code_blocks] *)

Lemma match_code_blocks_of_first (text pre body post : string) :
  first_fenced_block text pre body post → match_code_blocks text = body.
Proof.
  intros Hfirst. unfold match_code_blocks.
  by rewrite (search_pattern_first _ _ _ _ Hfirst).
Qed.

Lemma match_code_blocks_no_block (text : string) :
  ¬ has_fenced_block text → match_code_blocks text = "".
Proof.
  intros Hn. unfold match_code_blocks.
  by rewrite (proj2 (search_pattern_None text) Hn).
Qed.

Example match_code_blocks_one :
  match_code_blocks ("Here:" +:+ nl +:+ Sample.fenced "print(1+1)" +:+ nl +:+ "done")
  = "print(1+1)".
Proof. vm_compute. reflexivity. Qed.

Example match_code_blocks_two_blocks :
  match_code_blocks Sample.two_blocks = "a = 1".
Proof. vm_compute. reflexivity. Qed.

Example match_code_blocks_other_language :
  match_code_blocks Sample.other_language = "".
Proof. vm_compute. reflexivity. Qed.

Example match_code_blocks_untagged :
  match_code_blocks Sample.untagged = "".
Proof. vm_compute. reflexivity. Qed.

(** The interior may itself be empty: the fences are then two lines apart. *)
Example match_code_blocks_empty_interior :
  match_code_blocks (Sample.fenced "") = "".
Proof. vm_compute. reflexivity. Qed.

(** C1. A reply text that holds a python-tagged fenced block (the opening
    fence [```python] and a newline, the interior, a newline and the closing
    fence [```]) has exactly one first such block, and [match_code_blocks]
    returns the interior of that block, character for character: nothing of
    what stands before the opening fence, of the two fences, or of what
    follows the closing fence, later blocks included. *)
Theorem match_code_blocks_first_block (text : string) :
  has_fenced_block text →
  ∃ pre body post,
    first_fenced_block text pre body post ∧
    text = pre +:+ fence_open +:+ body +:+ fence_close +:+ post ∧
    match_code_blocks text = body ∧
    ∀ pre' body' post',
      first_fenced_block text pre' body' post' →
      pre' = pre ∧ body' = body ∧ post' = post.
Proof.
  intros Hb. destruct (first_fenced_block_exists text Hb)
    as (pre & body & post & Hfirst).
  exists pre, body, post. split; [done|]. split; [apply Hfirst|].
  split; [by apply (match_code_blocks_of_first text pre body post)|].
  intros pre' body' post' Hfirst'.
  by apply (first_fenced_block_unique text pre' body' post' pre body post).
Qed.

Lemma match_code_blocks_first_block_witness :
  ∃ pre body post,
    first_fenced_block Sample.two_blocks pre body post ∧
    Sample.two_blocks = pre +:+ fence_open +:+ body +:+ fence_close +:+ post ∧
    match_code_blocks Sample.two_blocks = body ∧
    ∀ pre' body' post',
      first_fenced_block Sample.two_blocks pre' body' post' →
      pre' = pre ∧ body' = body ∧ post' = post.
Proof.
  apply (match_code_blocks_first_block Sample.two_blocks).
  exists ("First:" +:+ nl), "a = 1",
    (nl +:+ "then:" +:+ nl +:+ Sample.fenced "b = 2" +:+ nl).
  vm_compute. reflexivity.
Defined.

(** ** Classification: the chain of lines 156-167 *)

Lemma hasattr_true (result : Result) (attr : string) :
  hasattr result attr = true ↔ is_Some (attrs result !! attr).
Proof. unfold hasattr. by rewrite bool_decide_eq_true. Qed.

Lemma hasattr_false (result : Result) (attr : string) :
  hasattr result attr = false ↔ attrs result !! attr = None.
Proof.
  unfold hasattr. rewrite bool_decide_eq_false. symmetry.
  apply eq_None_not_Some.
Qed.

(** The first probe: the attribute is there and its value is truthy. *)
Lemma png_probe (result : Result) :
  hasattr result "png" && truthy (getattr result "png") = true ↔
  has_png_payload result.
Proof.
  rewrite andb_true_iff, hasattr_true. unfold has_png_payload, getattr.
  destruct (attrs result !! "png") as [v|]; cbn.
  - split; [intros [_ ?]; eauto|]. intros (v' & [= <-] & ?). eauto.
  - split; [by intros [[? [=]] _]|]. by intros (v' & [=] & _).
Qed.

Lemma png_probe_false (result : Result) :
  hasattr result "png" && truthy (getattr result "png") = false ↔
  ¬ has_png_payload result.
Proof. rewrite <- png_probe. by destruct (_ && _). Qed.

Lemma isinstance_tabular_true (result : Result) :
  isinstance_tabular result = true ↔ is_tabular_value result.
Proof.
  unfold isinstance_tabular, is_tabular_value.
  destruct (class_of result); intuition congruence.
Qed.

(** Which category [classify] gives, read off the attributes alone. *)
Lemma classify_image (result : Result) :
  classify result = image ↔ has_png_payload result.
Proof.
  rewrite <- png_probe. unfold classify.
  destruct (_ && _); [done|].
  by destruct (hasattr result "figure"), (hasattr result "show"),
    (isinstance_tabular result).
Qed.

Lemma classify_figure (result : Result) :
  classify result = figure ↔
  ¬ has_png_payload result ∧ has_figure_handle result.
Proof.
  rewrite <- png_probe_false. unfold has_figure_handle.
  rewrite <- hasattr_true. unfold classify.
  destruct (_ && _); [intuition congruence|].
  destruct (hasattr result "figure"); [done|].
  destruct (hasattr result "show"), (isinstance_tabular result); intuition congruence.
Qed.

Lemma classify_interactiveChart (result : Result) :
  classify result = interactiveChart ↔
  ¬ has_png_payload result ∧ ¬ has_figure_handle result ∧
  has_show_capability result.
Proof.
  rewrite <- png_probe_false. unfold has_figure_handle, has_show_capability.
  rewrite <- !hasattr_true. unfold classify.
  destruct (_ && _); [intuition congruence|].
  destruct (hasattr result "figure"); [intuition congruence|].
  destruct (hasattr result "show"); [intuition congruence|].
  destruct (isinstance_tabular result); intuition congruence.
Qed.

Lemma classify_tabular (result : Result) :
  classify result = tabular ↔
  ¬ has_png_payload result ∧ ¬ has_figure_handle result ∧
  ¬ has_show_capability result ∧ is_tabular_value result.
Proof.
  rewrite <- png_probe_false, <- isinstance_tabular_true.
  unfold has_figure_handle, has_show_capability.
  rewrite <- !hasattr_true. unfold classify.
  destruct (_ && _); [intuition congruence|].
  destruct (hasattr result "figure"); [intuition congruence|].
  destruct (hasattr result "show"); [intuition congruence|].
  destruct (isinstance_tabular result); intuition congruence.
Qed.

Lemma classify_raw (result : Result) :
  classify result = raw ↔
  ¬ has_png_payload result ∧ ¬ has_figure_handle result ∧
  ¬ has_show_capability result ∧ ¬ is_tabular_value result.
Proof.
  rewrite <- png_probe_false, <- isinstance_tabular_true.
  unfold has_figure_handle, has_show_capability.
  rewrite <- !hasattr_true. unfold classify.
  destruct (_ && _); [intuition congruence|].
  destruct (hasattr result "figure"); [intuition congruence|].
  destruct (hasattr result "show"); [intuition congruence|].
  destruct (isinstance_tabular result); intuition congruence.
Qed.

Example classify_chart : classify Sample.chart = image.
Proof. vm_compute. reflexivity. Qed.

Example classify_blank_figure : classify Sample.blank_figure = figure.
Proof. vm_compute. reflexivity. Qed.

(** C10. For a result without a non-empty [png] payload, the [figure] and
    [show] probes look at the presence of the attribute only: with a
    [figure] attribute of whatever value, [None] included, the category is
    [figure], and without one a [show] attribute of whatever value gives
    [interactiveChart].  The [png] probe is the one that also asks for a
    truthy value, so such a result is never an [image], even when it has a
    [png] attribute. *)
Theorem probes_test_presence (result : Result) :
  ¬ has_png_payload result →
  (∀ v, attrs result !! "figure" = Some v → classify result = figure) ∧
  (attrs result !! "figure" = None →
   ∀ v, attrs result !! "show" = Some v →
        classify result = interactiveChart) ∧
  (∀ v, attrs result !! "png" = Some v →
        truthy v = false ∧ classify result ≠ image).
Proof.
  intros Hpng. split; [|split].
  - intros v Hv. apply classify_figure. split; [done|]. by exists v.
  - intros Hfig v Hv. apply classify_interactiveChart.
    split; [done|]. split; [|by exists v].
    unfold has_figure_handle. rewrite Hfig. by intros [? ?].
  - intros v Hv. split.
    + destruct (truthy v) eqn:Ht; [|done]. destruct Hpng. by exists v.
    + by rewrite classify_image.
Qed.

Lemma probes_test_presence_witness :
  (∀ v, attrs Sample.blank_figure !! "figure" = Some v →
        classify Sample.blank_figure = figure) ∧
  (attrs Sample.blank_figure !! "figure" = None →
   ∀ v, attrs Sample.blank_figure !! "show" = Some v →
        classify Sample.blank_figure = interactiveChart) ∧
  (∀ v, attrs Sample.blank_figure !! "png" = Some v →
        truthy v = false ∧ classify Sample.blank_figure ≠ image).
Proof.
  apply (probes_test_presence Sample.blank_figure).
  apply png_probe_false. vm_compute. reflexivity.
Defined.

(** ** Running computations *)

Section Properties.
Context `{Environment}.

Lemma bind_run {A B} (m : M A) (f : A → M B) (st : state) :
  (m ≫= f) st =
  match m st with
  | (tr, st', Return a) =>
      match f a st' with (tr', st'', o) => (tr ++ tr', st'', o) end
  | (tr, st', Raise e) => (tr, st', Raise e)
  end.
Proof. reflexivity. Qed.

Lemma bind_trace {A B} (m : M A) (f : A → M B) (st : state) :
  trace ((m ≫= f) st) =
  trace (m st) ++
  match result (m st) with
  | Return a => trace (f a (final (m st)))
  | Raise _ => []
  end.
Proof.
  rewrite bind_run. destruct (m st) as [[tr st'] [a|e]]; cbn.
  - by destruct (f a st') as [[tr' st''] o].
  - by rewrite app_nil_r.
Qed.

Lemma bind_result {A B} (m : M A) (f : A → M B) (st : state) :
  result ((m ≫= f) st) =
  match result (m st) with
  | Return a => result (f a (final (m st)))
  | Raise e => Raise e
  end.
Proof.
  rewrite bind_run. destruct (m st) as [[tr st'] [a|e]]; cbn; [|done].
  by destruct (f a st') as [[tr' st''] o].
Qed.

(** *** Rules of the program logic *)

Lemma satisfies_ret {A} (a : A) (P : event → Prop) (Q : A → Prop) :
  Q a → satisfies (mret a) P Q.
Proof. intros HQ st. split; [constructor|]. by intros a' [= <-]. Qed.

Lemma satisfies_throw {A} (e : exn) (P : event → Prop) (Q : A → Prop) :
  satisfies (mthrow e) P Q.
Proof. intros st. split; [constructor|]. by intros a' [=]. Qed.

Lemma satisfies_bind {A B} (m : M A) (f : A → M B) P (Q : A → Prop)
    (R : B → Prop) :
  satisfies m P Q → (∀ a, Q a → satisfies (f a) P R) →
  satisfies (m ≫= f) P R.
Proof.
  intros Hm Hf st. destruct (Hm st) as [Htr Hres].
  rewrite bind_trace, bind_result.
  destruct (result (m st)) as [a|e] eqn:Hr.
  - destruct (Hf a (Hres a eq_refl) (final (m st))) as [Htr' Hres'].
    split; [by apply Forall_app|done].
  - split; [by rewrite app_nil_r|done].
Qed.

Lemma satisfies_emit (e : event) (P : event → Prop) :
  P e → satisfies (emit e) P (λ _, True).
Proof. intros HP st. split; [by repeat constructor|done]. Qed.

Lemma satisfies_call {A} (e : event) (f : world → outcome A * world)
    (P : event → Prop) :
  P e → satisfies (call e f) P (λ _, True).
Proof.
  intros HP st. unfold call. destruct (f (outside st)) as [o w].
  split; [by repeat constructor|done].
Qed.

Lemma satisfies_lift {A} (o : outcome A) (P : event → Prop) :
  satisfies (lift o) P (λ _, True).
Proof. intros st. split; [constructor|done]. Qed.

Lemma satisfies_session_get (key : string) (P : event → Prop) :
  satisfies (session_get key) P (λ _, True).
Proof.
  intros st. unfold session_get.
  destruct (session_state st !! key); (split; [constructor|done]).
Qed.

Lemma satisfies_session_set (key v : string) (P : event → Prop) :
  satisfies (session_set key v) P (λ _, True).
Proof. intros st. split; [constructor|done]. Qed.

Lemma satisfies_session_setdefault (key v : string) (P : event → Prop) :
  satisfies (session_setdefault key v) P (λ _, True).
Proof. intros st. split; [constructor|done]. Qed.

Lemma satisfies_when (b : bool) (m : M ()) (P : event → Prop) :
  satisfies m P (λ _, True) → satisfies (when b m) P (λ _, True).
Proof. intros Hm. destruct b; [done|]. by apply satisfies_ret. Qed.

Lemma satisfies_finally {A} (m : M A) (fin : M ()) P (Q : A → Prop) :
  satisfies m P Q → satisfies fin P (λ _, True) →
  satisfies (finally m fin) P Q.
Proof.
  intros Hm Hfin st. unfold finally.
  destruct (Hm st) as [Htr Hres]. destruct (m st) as [[tr st'] o].
  destruct (Hfin st') as [Htr' _].
  destruct (fin st') as [[tr' st''] [[]|e]]; cbn in *;
    (split; [by apply Forall_app|done]).
Qed.

Lemma satisfies_try_except {A} (m : M A) (handler : exn → M A) P
    (Q : A → Prop) :
  satisfies m P Q → (∀ e, satisfies (handler e) P Q) →
  satisfies (try_except m handler) P Q.
Proof.
  intros Hm Hh st. unfold try_except.
  destruct (Hm st) as [Htr Hres]. destruct (m st) as [[tr st'] [a|e]].
  - done.
  - destruct (Hh e st') as [Htr' Hres'].
    destruct (handler e st') as [[tr' st''] o]; cbn in *.
    split; [by apply Forall_app|done].
Qed.

Lemma satisfies_for_each {A} (body : A → M ()) (xs : list A) P :
  (∀ x, satisfies (body x) P (λ _, True)) →
  satisfies (for_each body xs) P (λ _, True).
Proof.
  intros Hbody. induction xs as [|x xs IH]; cbn.
  - by apply satisfies_ret.
  - eapply satisfies_bind; [apply Hbody|]. by intros [] _.
Qed.

(** *** [display] *)

Lemma display_rendered (result : Result) (st : state) (e : event) :
  e ∈ trace (display result st) → rendered_as e = Some (classify result).
Proof.
  unfold display. destruct (classify result); cbn.
  - unfold lift, mbind, M_bind.
    destruct (image_open_b64decode _) as [img|err]; cbn.
    + by intros ->%list_elem_of_singleton.
    + by intros ?%elem_of_nil.
  - by intros ->%list_elem_of_singleton.
  - by intros ->%list_elem_of_singleton.
  - by intros ->%list_elem_of_singleton.
  - by intros ->%list_elem_of_singleton.
Qed.

(** *** [code_interpret], run on an answer of the sandbox *)

Ltac run_unfold :=
  unfold mbind, M_bind, mret, M_ret, mthrow, M_throw, when, print, emit,
    call, lift, session_get, with_outside.

Lemma code_interpret_run (code : string) (st : state)
    (stdout_capture stderr_capture : string) (exec : Execution) (w : world) :
  run_code code (outside st) =
    (Return (stdout_capture, stderr_capture, exec), w) →
  code_interpret code st =
    ([StSpinner "Executing code in E2B sandbox..."; RunCode code] ++
     diagnostics stdout_capture stderr_capture ++ error_report exec,
     with_outside st w, Return (returned_results exec)).
Proof.
  intros Hrun. unfold code_interpret, diagnostics, error_report,
    returned_results.
  run_unfold. cbn. rewrite Hrun. cbn.
  by destruct (nonempty stderr_capture), (nonempty stdout_capture),
    (error exec).
Qed.

Lemma code_interpret_raise (code : string) (st : state) (e : exn) (w : world) :
  run_code code (outside st) = (Raise e, w) →
  code_interpret code st =
    ([StSpinner "Executing code in E2B sandbox..."; RunCode code],
     with_outside st w, Raise e).
Proof.
  intros Hrun. unfold code_interpret. run_unfold. cbn. by rewrite Hrun.
Qed.

(** *** [chat_with_llm], run on an answer of the completion service *)

Lemma chat_with_llm_run (user_message dataset_path : string) (st : state)
    (api_key model text : string) (rest : ChatCompletion) (w : world) :
  session_state st !! "together_api_key" = Some api_key →
  session_state st !! "model_name" = Some model →
  completions_create api_key model
    (chat_messages user_message dataset_path) (outside st)
    = (Return (Some text :: rest), w) →
  chat_with_llm user_message dataset_path st =
    if nonempty (match_code_blocks text) then
      match code_interpret (match_code_blocks text) (with_outside st w) with
      | (tr, st', o) =>
          ([StSpinner "Getting response from Together AI LLM model...";
            CompletionsCreate api_key model
              (chat_messages user_message dataset_path)] ++ tr,
           st',
           match o with
           | Return code_results => Return (code_results, text)
           | Raise e => Raise e
           end)
      end
    else
      ([StSpinner "Getting response from Together AI LLM model...";
        CompletionsCreate api_key model
          (chat_messages user_message dataset_path);
        StWarning "No Python code block detected in LLM response."],
       with_outside st w, Return (None, text)).
Proof.
  intros Hkey Hmodel Hcreate. unfold chat_with_llm.
  run_unfold. cbn -[match_code_blocks chat_messages code_interpret].
  rewrite Hkey, Hmodel. cbn -[match_code_blocks chat_messages code_interpret].
  rewrite Hcreate. cbn -[match_code_blocks chat_messages code_interpret].
  destruct (nonempty (match_code_blocks text)); [|done].
  destruct (code_interpret _ _) as [[tr st'] [r|e]]; [|done].
  by rewrite app_nil_r.
Qed.

Lemma chat_with_llm_without_code (user_message dataset_path : string)
    (st : state) (api_key model text : string) (rest : ChatCompletion)
    (w : world) :
  session_state st !! "together_api_key" = Some api_key →
  session_state st !! "model_name" = Some model →
  completions_create api_key model
    (chat_messages user_message dataset_path) (outside st)
    = (Return (Some text :: rest), w) →
  match_code_blocks text = "" →
  chat_with_llm user_message dataset_path st =
    ([StSpinner "Getting response from Together AI LLM model...";
      CompletionsCreate api_key model
        (chat_messages user_message dataset_path);
      StWarning "No Python code block detected in LLM response."],
     with_outside st w, Return (None, text)).
Proof.
  intros Hkey Hmodel Hcreate Hcode.
  rewrite (chat_with_llm_run _ _ _ _ _ _ _ _ Hkey Hmodel Hcreate).
  by rewrite Hcode.
Qed.

Lemma chat_with_llm_with_code (user_message dataset_path : string)
    (st : state) (api_key model text : string) (rest : ChatCompletion)
    (w1 : world) (stdout_capture stderr_capture : string)
    (exec : Execution) (w2 : world) :
  session_state st !! "together_api_key" = Some api_key →
  session_state st !! "model_name" = Some model →
  completions_create api_key model
    (chat_messages user_message dataset_path) (outside st)
    = (Return (Some text :: rest), w1) →
  match_code_blocks text ≠ "" →
  run_code (match_code_blocks text) w1
    = (Return (stdout_capture, stderr_capture, exec), w2) →
  chat_with_llm user_message dataset_path st =
    ([StSpinner "Getting response from Together AI LLM model...";
      CompletionsCreate api_key model
        (chat_messages user_message dataset_path);
      StSpinner "Executing code in E2B sandbox...";
      RunCode (match_code_blocks text)] ++
     diagnostics stdout_capture stderr_capture ++ error_report exec,
     with_outside st w2, Return (returned_results exec, text)).
Proof.
  intros Hkey Hmodel Hcreate Hcode Hrun.
  rewrite (chat_with_llm_run _ _ _ _ _ _ _ _ Hkey Hmodel Hcreate).
  unfold nonempty. rewrite bool_decide_eq_true_2 by done.
  by rewrite (code_interpret_run _ (with_outside st w1) _ _ _ _ Hrun).
Qed.

Lemma diagnostics_not_rendered (stdout_capture stderr_capture : string)
    (e : event) :
  e ∈ diagnostics stdout_capture stderr_capture → rendered_as e = None.
Proof.
  unfold diagnostics.
  destruct (nonempty stderr_capture), (nonempty stdout_capture); cbn;
    rewrite ?elem_of_cons, ?elem_of_nil; intros He;
    repeat (destruct He as [->|He]; [done|]); done.
Qed.

(** *** The claims on execution and on a turn *)

(** C2. When the sandbox answers a submission with a runtime error,
    [code_interpret] returns [None], whatever the execution had gathered in
    [results].  The text written to the process's [sys.stdout] and
    [sys.stderr] while the code ran is printed back to these two streams,
    followed by the error on [sys.stderr]; nothing in the run shows or
    returns a result. *)
Theorem code_interpret_failure (code : string) (st : state)
    (stdout_capture stderr_capture : string) (exec : Execution)
    (e : ExecutionError) (w : world) :
  run_code code (outside st) =
    (Return (stdout_capture, stderr_capture, exec), w) →
  error exec = Some e →
  result (code_interpret code st) = Return None ∧
  trace (code_interpret code st) =
    [StSpinner "Executing code in E2B sandbox..."; RunCode code] ++
    diagnostics stdout_capture stderr_capture ++
    [Print sys_stderr
       (("[Code Interpreter ERROR] " +:+ execution_error_str e) +:+ nl)] ∧
  (stdout_capture ≠ "" →
   Print sys_stdout (stdout_capture +:+ nl) ∈ trace (code_interpret code st)) ∧
  (stderr_capture ≠ "" →
   Print sys_stderr (stderr_capture +:+ nl) ∈ trace (code_interpret code st)) ∧
  (∀ ev, ev ∈ trace (code_interpret code st) → rendered_as ev = None).
Proof.
  intros Hrun Herr. rewrite (code_interpret_run _ _ _ _ _ _ Hrun).
  unfold returned_results, error_report. rewrite Herr. cbn [result trace fst snd].
  split; [done|]. split; [done|]. split; [|split].
  - intros Hout. unfold diagnostics, nonempty.
    rewrite (bool_decide_eq_true_2 (stdout_capture ≠ "")) by done.
    rewrite !elem_of_app, !elem_of_cons. tauto.
  - intros Hout. unfold diagnostics, nonempty.
    rewrite (bool_decide_eq_true_2 (stderr_capture ≠ "")) by done.
    rewrite !elem_of_app, !elem_of_cons. tauto.
  - intros ev. rewrite !elem_of_app, !elem_of_cons, elem_of_nil.
    intros [[->|[->|[]]]|[Hd|[->|[]]]]; try done.
    by apply (diagnostics_not_rendered stdout_capture stderr_capture).
Qed.

(** C4. In a turn whose reply holds code that the sandbox fails to run,
    [chat_with_llm] returns normally, with [None] for the results and the
    whole reply as the text.  The failure shows in the run only as the line
    printed to [sys.stderr]. *)
Theorem chat_with_llm_execution_failure (user_message dataset_path : string)
    (st : state) (api_key model text : string) (rest : ChatCompletion)
    (w1 : world) (stdout_capture stderr_capture : string)
    (exec : Execution) (e : ExecutionError) (w2 : world) :
  session_state st !! "together_api_key" = Some api_key →
  session_state st !! "model_name" = Some model →
  completions_create api_key model
    (chat_messages user_message dataset_path) (outside st)
    = (Return (Some text :: rest), w1) →
  match_code_blocks text ≠ "" →
  run_code (match_code_blocks text) w1
    = (Return (stdout_capture, stderr_capture, exec), w2) →
  error exec = Some e →
  chat_with_llm user_message dataset_path st =
    ([StSpinner "Getting response from Together AI LLM model...";
      CompletionsCreate api_key model
        (chat_messages user_message dataset_path);
      StSpinner "Executing code in E2B sandbox...";
      RunCode (match_code_blocks text)] ++
     diagnostics stdout_capture stderr_capture ++
     [Print sys_stderr
        (("[Code Interpreter ERROR] " +:+ execution_error_str e) +:+ nl)],
     with_outside st w2, Return (None, text)).
Proof.
  intros Hkey Hmodel Hcreate Hcode Hrun Herr.
  rewrite (chat_with_llm_with_code _ _ _ _ _ _ _ _ _ _ _ _
             Hkey Hmodel Hcreate Hcode Hrun).
  unfold error_report, returned_results. by rewrite Herr.
Qed.

(** C5. In a turn whose reply yields no code ([match_code_blocks] returns
    the empty text), [chat_with_llm] returns [None] for the results and the
    reply as the text, calls [st.warning], and submits nothing to the
    sandbox: the run has no [RunCode] event and leaves the services as the
    completion call left them. *)
Theorem chat_with_llm_no_code (user_message dataset_path : string)
    (st : state) (api_key model text : string) (rest : ChatCompletion)
    (w : world) :
  session_state st !! "together_api_key" = Some api_key →
  session_state st !! "model_name" = Some model →
  completions_create api_key model
    (chat_messages user_message dataset_path) (outside st)
    = (Return (Some text :: rest), w) →
  match_code_blocks text = "" →
  result (chat_with_llm user_message dataset_path st) = Return (None, text) ∧
  StWarning "No Python code block detected in LLM response."
    ∈ trace (chat_with_llm user_message dataset_path st) ∧
  (∀ code, RunCode code ∉ trace (chat_with_llm user_message dataset_path st)) ∧
  outside (final (chat_with_llm user_message dataset_path st)) = w.
Proof.
  intros Hkey Hmodel Hcreate Hcode.
  rewrite (chat_with_llm_without_code _ _ _ _ _ _ _ _
             Hkey Hmodel Hcreate Hcode).
  cbn [result trace final fst snd]. split; [done|]. split; [|split; [|done]].
  - rewrite !elem_of_cons. tauto.
  - intros code. rewrite !elem_of_cons, elem_of_nil.
    by intros [|[|[|]]].
Qed.

(** C6. In a turn whose code the sandbox runs without error and without
    any result, [chat_with_llm] returns the empty list for the results,
    which is not the [None] that a turn without code returns. *)
Theorem chat_with_llm_empty_results (user_message dataset_path : string)
    (st : state) (api_key model text : string) (rest : ChatCompletion)
    (w1 : world) (stdout_capture stderr_capture : string)
    (exec : Execution) (w2 : world) :
  session_state st !! "together_api_key" = Some api_key →
  session_state st !! "model_name" = Some model →
  completions_create api_key model
    (chat_messages user_message dataset_path) (outside st)
    = (Return (Some text :: rest), w1) →
  match_code_blocks text ≠ "" →
  run_code (match_code_blocks text) w1
    = (Return (stdout_capture, stderr_capture, exec), w2) →
  error exec = None →
  results exec = [] →
  result (chat_with_llm user_message dataset_path st)
    = Return (Some [], text) ∧
  (Some [] : option (list Result)) ≠ None ∧
  ∀ (user_message' dataset_path' : string) (st' : state)
    (api_key' model' text' : string) (rest' : ChatCompletion) (w' : world),
    session_state st' !! "together_api_key" = Some api_key' →
    session_state st' !! "model_name" = Some model' →
    completions_create api_key' model'
      (chat_messages user_message' dataset_path') (outside st')
      = (Return (Some text' :: rest'), w') →
    match_code_blocks text' = "" →
    result (chat_with_llm user_message' dataset_path' st')
      = Return (None, text').
Proof.
  intros Hkey Hmodel Hcreate Hcode Hrun Herr Hres.
  rewrite (chat_with_llm_with_code _ _ _ _ _ _ _ _ _ _ _ _
             Hkey Hmodel Hcreate Hcode Hrun).
  unfold returned_results. rewrite Herr, Hres.
  split; [done|]. split; [done|].
  intros q' p' st' k' m' text' rest' w' Hkey' Hmodel' Hcreate' Hcode'.
  by rewrite (chat_with_llm_without_code _ _ _ _ _ _ _ _
                Hkey' Hmodel' Hcreate' Hcode').
Qed.

(** C7. A reply text without a python-tagged fenced block, such as one
    whose fences are tagged for another language or not tagged, gives the
    empty text, and [chat_with_llm] takes that as a reply without code: it
    returns normally, with the reply text and [None] for the results, after
    a warning. *)
Theorem match_code_blocks_none (text : string) :
  ¬ has_fenced_block text →
  match_code_blocks text = "" ∧
  ∀ (user_message dataset_path : string) (st : state)
    (api_key model : string) (rest : ChatCompletion) (w : world),
    session_state st !! "together_api_key" = Some api_key →
    session_state st !! "model_name" = Some model →
    completions_create api_key model
      (chat_messages user_message dataset_path) (outside st)
      = (Return (Some text :: rest), w) →
    result (chat_with_llm user_message dataset_path st)
      = Return (None, text) ∧
    StWarning "No Python code block detected in LLM response."
      ∈ trace (chat_with_llm user_message dataset_path st).
Proof.
  intros Hn. pose proof (match_code_blocks_no_block text Hn) as Hcode.
  split; [done|].
  intros q p st k m rest w Hkey Hmodel Hcreate.
  rewrite (chat_with_llm_without_code _ _ _ _ _ _ _ _
             Hkey Hmodel Hcreate Hcode).
  cbn [result trace fst snd]. split; [done|].
  rewrite !elem_of_cons. tauto.
Qed.

(** C3. The category of a result is settled by the probes in the order
    non-empty [png] payload, [figure], [show], tabular value, and [raw] when
    none holds: each category is given exactly when its probe holds and
    every earlier one fails.  So a result with a non-empty [png] payload
    and a [show] attribute is an [image], not an [interactiveChart]; and
    the Streamlit call that [main] makes for a result is the one of its
    category. *)
Theorem classify_priority_order (result : Result) :
  (has_png_payload result → classify result = image) ∧
  (¬ has_png_payload result → has_figure_handle result →
   classify result = figure) ∧
  (¬ has_png_payload result → ¬ has_figure_handle result →
   has_show_capability result → classify result = interactiveChart) ∧
  (¬ has_png_payload result → ¬ has_figure_handle result →
   ¬ has_show_capability result → is_tabular_value result →
   classify result = tabular) ∧
  (¬ has_png_payload result → ¬ has_figure_handle result →
   ¬ has_show_capability result → ¬ is_tabular_value result →
   classify result = raw) ∧
  (has_png_payload result → has_show_capability result →
   classify result = image ∧ classify result ≠ interactiveChart) ∧
  (∀ st e, e ∈ trace (display result st) →
           rendered_as e = Some (classify result)).
Proof.
  split; [by rewrite classify_image|].
  split; [by rewrite classify_figure|].
  split; [by rewrite classify_interactiveChart|].
  split; [by rewrite classify_tabular|].
  split; [by rewrite classify_raw|].
  split; [|apply display_rendered].
  intros Hpng _. apply classify_image in Hpng. by rewrite Hpng.
Qed.

(** *** The key check of [main] *)

Lemma analyze_missing_keys (uploaded_file : UploadedFile) (query : string)
    (st : state) (together_api_key e2b_api_key : string) :
  session_state st !! "together_api_key" = Some together_api_key →
  session_state st !! "e2b_api_key" = Some e2b_api_key →
  together_api_key = "" ∨ e2b_api_key = "" →
  analyze uploaded_file query st =
    ([StError "Please enter both API keys in the sidebar."], st, Return ()).
Proof.
  intros Hk1 Hk2 Hempty. unfold analyze. run_unfold.
  cbn -[with_sandbox]. rewrite Hk1. cbn -[with_sandbox].
  unfold nonempty. destruct (decide (together_api_key = "")) as [->|Hne].
  - done.
  - rewrite bool_decide_eq_true_2 by done. rewrite Hk2. cbn -[with_sandbox].
    destruct Hempty as [? | ->]; done.
Qed.

(** C9. When either API key is entered empty, a run of [main] calls
    neither service: no sandbox is opened, no file is written, no code is
    run and no completion is asked for, and the services are left as they
    were.  When the analysis is asked for (a file is uploaded and read, the
    selected model is known, the button is pressed), the run ends normally
    after [st.error] has shown the message. *)
Theorem main_missing_api_key (ui : widgets) (st : state) :
  together_api_key_input ui = "" ∨ e2b_api_key_input ui = "" →
  Forall (λ e, external e = false) (trace (main ui st)) ∧
  outside (final (main ui st)) = outside st ∧
  ∀ uploaded_file df model,
    uploaded ui = Some uploaded_file →
    read_csv uploaded_file = Return df →
    model_options !! selected_model ui = Some model →
    analyze_pressed ui = true →
    StError "Please enter both API keys in the sidebar."
      ∈ trace (main ui st) ∧
    result (main ui st) = Return ().
Proof.
  intros Hempty. unfold main.
  unfold mbind, M_bind, mret, M_ret, mthrow, M_throw, when, emit,
    session_set, session_setdefault, lift.
  cbn -[analyze model_options].
  destruct (model_options !! selected_model ui) as [model|] eqn:Hmodel;
    cbn -[analyze model_options].
  2:{ split; [by repeat constructor|]. split; [done|].
      intros. simplify_eq; congruence. }
  destruct (uploaded ui) as [f|]; cbn -[analyze model_options].
  2:{ split; [by repeat constructor|]. split; [done|].
      intros. simplify_eq; congruence. }
  destruct (read_csv f) as [df|e] eqn:Hcsv; cbn -[analyze model_options].
  2:{ split; [by repeat constructor|]. split; [done|].
      intros. simplify_eq; congruence. }
  destruct (analyze_pressed ui).
  2:{ destruct (show_full_dataset ui); cbn -[analyze model_options];
        (split; [by repeat constructor|]); (split; [done|]);
        intros; simplify_eq; congruence. }
  destruct (show_full_dataset ui); cbn -[analyze model_options];
    erewrite (analyze_missing_keys _ _ _ (together_api_key_input ui)
                (e2b_api_key_input ui));
    try (by simplify_map_eq); try done;
    cbn [trace final result fst snd outside];
    (split; [by repeat constructor|]); (split; [done|]);
    intros _ _ _ _ _ _ _; (split; [|done]);
    rewrite !elem_of_cons; tauto.
Qed.

(** *** One path per turn *)

Lemma satisfies_bind_True {A B} (m : M A) (f : A → M B) P (R : B → Prop) :
  satisfies m P (λ _, True) → (∀ a, satisfies (f a) P R) →
  satisfies (m ≫= f) P R.
Proof. intros Hm Hf. eapply satisfies_bind; [done|]. intros a _. apply Hf. Qed.

Ltac prim :=
  first
    [ by apply satisfies_ret
    | apply satisfies_throw
    | apply satisfies_emit; done
    | apply satisfies_call; done
    | apply satisfies_lift
    | apply satisfies_session_get
    | apply satisfies_session_set
    | apply satisfies_session_setdefault ].

Ltac step := apply satisfies_bind_True; [prim|intros _].
Tactic Notation "step" "as" simple_intropattern(x) :=
  apply satisfies_bind_True; [prim|intros x].

Lemma code_interpret_consistent (path query code : string) :
  satisfies (code_interpret code) (path_consistent path query) (λ _, True).
Proof.
  unfold code_interpret, print. step.
  step as [[stdout_capture stderr_capture] exec].
  apply satisfies_bind_True; [apply satisfies_when; step; prim|intros _].
  apply satisfies_bind_True; [apply satisfies_when; step; prim|intros _].
  destruct (error exec); [step|]; prim.
Qed.

Lemma chat_with_llm_consistent (user_message dataset_path : string) :
  satisfies (chat_with_llm user_message dataset_path)
    (path_consistent dataset_path user_message) (λ _, True).
Proof.
  unfold chat_with_llm. cbn zeta. step. step as api_key. step as model.
  step as response.
  apply satisfies_bind_True; [destruct response; prim|intros message].
  apply satisfies_bind_True; [destruct message; prim|intros text].
  destruct (nonempty _); [|step; prim].
  apply satisfies_bind_True; [apply code_interpret_consistent|].
  intros code_results. prim.
Qed.

Lemma upload_dataset_consistent (uploaded_file : UploadedFile)
    (query : string) :
  satisfies (upload_dataset uploaded_file)
    (path_consistent ("./" +:+ file_name uploaded_file) query)
    (λ p, p = "./" +:+ file_name uploaded_file).
Proof.
  unfold upload_dataset. cbn zeta. apply satisfies_try_except.
  - step. prim.
  - intros e. step. prim.
Qed.

Lemma display_consistent (path query : string) (res : Result) :
  satisfies (display res) (path_consistent path query) (λ _, True).
Proof. unfold display. destruct (classify res); [step as img|..]; prim. Qed.

Lemma analyze_consistent (uploaded_file : UploadedFile) (query : string) :
  satisfies (analyze uploaded_file query)
    (path_consistent ("./" +:+ file_name uploaded_file) query) (λ _, True).
Proof.
  unfold analyze. step as together_api_key.
  apply satisfies_bind_True; [|intros missing].
  { destruct (nonempty together_api_key); [step as e2b_api_key|]; prim. }
  destruct missing; [prim|]. step as e2b_api_key.
  unfold with_sandbox. step.
  apply satisfies_finally; [|prim].
  eapply satisfies_bind; [apply upload_dataset_consistent|].
  intros p ->. cbn beta.
  apply satisfies_bind_True; [apply chat_with_llm_consistent|].
  intros [code_results llm_response]. step. step.
  apply satisfies_when, satisfies_for_each. intros res.
  apply display_consistent.
Qed.

Lemma main_consistent (ui : widgets) (path : string) :
  (∀ f, uploaded ui = Some f → path = "./" +:+ file_name f) →
  satisfies (main ui) (path_consistent path (query_text ui)) (λ _, True).
Proof.
  intros Hpath. unfold main. do 11 step.
  apply satisfies_bind_True; [|intros model_name].
  { destruct (model_options !! selected_model ui); prim. }
  step. destruct (uploaded ui) as [f|]; [|prim].
  rewrite (Hpath f eq_refl). step as df. step.
  apply satisfies_bind_True; [|intros _].
  { destruct (show_full_dataset ui); [|step]; prim. }
  apply satisfies_when, analyze_consistent.
Qed.

(** C8. The path of the dataset is [./] followed by the name of the
    uploaded file.  [upload_dataset] writes the file at that path and
    returns it; the system message of [chat_with_llm] holds the path given
    to it, twice, between fixed texts; and in every run of [main] each file
    write to the sandbox and each completion request carry that one path. *)
Theorem dataset_path_consistent (ui : widgets) (st : state)
    (uploaded_file : UploadedFile) :
  uploaded ui = Some uploaded_file →
  Forall (path_consistent ("./" +:+ file_name uploaded_file) (query_text ui))
    (trace (main ui st)) ∧
  (∀ st' p,
     result (upload_dataset uploaded_file st') = Return p →
     p = "./" +:+ file_name uploaded_file ∧
     trace (upload_dataset uploaded_file st') = [FilesWrite p uploaded_file]) ∧
  ∃ before between after,
    ∀ query path,
      chat_messages query path =
        [ {| role := "system";
             content := before +:+ path +:+ between +:+ path +:+ after |};
          {| role := "user"; content := query |} ].
Proof.
  intros Hup. split; [|split].
  - apply main_consistent. intros f Hf. congruence.
  - intros st' p. unfold upload_dataset, try_except. run_unfold. cbn.
    destruct (files_write _ _ _) as [[[]|e] w]; cbn; [|done].
    by intros [= <-].
  - exists
      ("You're a Python data scientist and data visualization expert."
       +:+ nl +:+ "You are given a dataset at path '"),
      ("' and also the user's query." +:+ nl +:+
       "You need to analyze the dataset and answer the user's query with a response and you run Python code to solve them."
       +:+ nl +:+ "IMPORTANT: Always use the dataset path variable '"),
      "' in your code when reading the CSV file.".
    intros query path. reflexivity.
Qed.

End Properties.

(** ** The claims at concrete inputs

    The runs below are over [Sample.env]: the completion service answers
    with the user message, so the message is the reply under test. *)

Section Witnesses.
Import Sample.
#[local] Existing Instance Sample.env.

(** A chart that has both a cached PNG and [show] is drawn as an image. *)
Example display_chart :
  trace (display chart st0) = [StImage "iVBORw0KGgo=" "Generated Visualization"].
Proof. vm_compute. reflexivity. Qed.

(** The turn of a reply [print(1+1)] whose run prints 2 and has no
    result. *)
Example chat_with_llm_print :
  chat_with_llm (fenced "print(1+1)") "./data.csv" st0 =
    ([StSpinner "Getting response from Together AI LLM model...";
      CompletionsCreate "tk" "deepseek-ai/DeepSeek-V3"
        (chat_messages (fenced "print(1+1)") "./data.csv");
      StSpinner "Executing code in E2B sandbox...";
      RunCode "print(1+1)";
      Print sys_stdout ("[Code Interpreter Output]" +:+ nl);
      Print sys_stdout ("2" +:+ nl)],
     st0, Return (Some [], fenced "print(1+1)")).
Proof. vm_compute. reflexivity. Qed.

(** In [main], the file write and the completion request of one run. *)
Example main_path_events :
  filter (λ e, bool_decide (external e = true))
    (trace (main (ui "tk" "ek" (fenced "print(1+1)")) st0)) =
    [SandboxEnter "ek";
     FilesWrite "./data.csv" data_csv;
     CompletionsCreate "tk" "deepseek-ai/DeepSeek-V3"
       (chat_messages (fenced "print(1+1)") "./data.csv");
     RunCode "print(1+1)";
     SandboxExit].
Proof. vm_compute. reflexivity. Qed.

Lemma code_interpret_failure_witness :
  result (code_interpret failing_code st0) = Return None ∧
  Print sys_stdout ("partial" +:+ nl) ∈ trace (code_interpret failing_code st0).
Proof.
  destruct (code_interpret_failure failing_code st0 "partial" ""
              {| results := []; error := Some zero_division |}
              zero_division [])
    as (Hres & _ & Hout & _); [reflexivity|reflexivity|].
  split; [exact Hres|]. apply Hout. discriminate.
Defined.

Lemma chat_with_llm_execution_failure_witness :
  result (chat_with_llm (fenced failing_code) "./data.csv" st0)
    = Return (None, fenced failing_code).
Proof.
  rewrite (chat_with_llm_execution_failure (fenced failing_code)
             "./data.csv" st0 "tk" "deepseek-ai/DeepSeek-V3"
             (fenced failing_code) [] [] "partial" ""
             {| results := []; error := Some zero_division |}
             zero_division []);
    [reflexivity|reflexivity|reflexivity|reflexivity|
     vm_compute; discriminate|vm_compute; reflexivity|reflexivity].
Defined.

Lemma chat_with_llm_no_code_witness :
  result (chat_with_llm other_language "./data.csv" st0)
    = Return (None, other_language) ∧
  StWarning "No Python code block detected in LLM response."
    ∈ trace (chat_with_llm other_language "./data.csv" st0) ∧
  (∀ code, RunCode code ∉ trace (chat_with_llm other_language "./data.csv" st0)) ∧
  outside (final (chat_with_llm other_language "./data.csv" st0)) = [].
Proof.
  apply (chat_with_llm_no_code other_language "./data.csv" st0
           "tk" "deepseek-ai/DeepSeek-V3" other_language []);
    [reflexivity|reflexivity|reflexivity|vm_compute; reflexivity].
Defined.

Lemma chat_with_llm_empty_results_witness :
  result (chat_with_llm (fenced "print(1+1)") "./data.csv" st0)
    = Return (Some [], fenced "print(1+1)").
Proof.
  apply (chat_with_llm_empty_results (fenced "print(1+1)") "./data.csv" st0
           "tk" "deepseek-ai/DeepSeek-V3" (fenced "print(1+1)") [] []
           "2" "" {| results := []; error := None |} []);
    [reflexivity|reflexivity|reflexivity|vm_compute; discriminate|
     vm_compute; reflexivity|reflexivity|reflexivity].
Defined.

Lemma match_code_blocks_none_witness :
  match_code_blocks untagged = "".
Proof.
  apply (match_code_blocks_none untagged).
  apply search_pattern_None. vm_compute. reflexivity.
Defined.

Lemma dataset_path_consistent_witness :
  Forall (path_consistent "./data.csv" (fenced "print(1+1)"))
    (trace (main (ui "tk" "ek" (fenced "print(1+1)")) st0)).
Proof.
  apply (dataset_path_consistent (ui "tk" "ek" (fenced "print(1+1)")) st0
           data_csv).
  reflexivity.
Defined.

Lemma main_missing_api_key_witness :
  Forall (λ e, external e = false) (trace (main (ui "tk" "" "q") st0)) ∧
  StError "Please enter both API keys in the sidebar."
    ∈ trace (main (ui "tk" "" "q") st0).
Proof.
  destruct (main_missing_api_key (ui "tk" "" "q") st0) as (Hq & _ & Herr);
    [right; reflexivity|].
  split; [exact Hq|].
  apply (Herr data_csv "a,b" "deepseek-ai/DeepSeek-V3");
    [reflexivity|reflexivity|vm_compute; reflexivity|reflexivity].
Defined.

End Witnesses.

(** * Further properties *)

(** ** More on strings *)

Lemma string_app_nil_r (s : string) : s +:+ "" = s.
Proof.
  induction s as [|c s IH]; [done|]. by rewrite string_app_cons, IH.
Qed.

Lemma string_app_assoc (s1 s2 s3 : string) :
  (s1 +:+ s2) +:+ s3 = s1 +:+ s2 +:+ s3.
Proof.
  induction s1 as [|c s1 IH]; [done|]. by rewrite !string_app_cons, IH.
Qed.

Lemma string_app_length (s1 s2 : string) :
  String.length (s1 +:+ s2) = String.length s1 + String.length s2.
Proof.
  induction s1 as [|c s1 IH]; [done|]. rewrite string_app_cons. cbn.
  by rewrite IH.
Qed.

(** Of two cuts of one text, the longer left part extends the shorter. *)
Lemma string_app_split_le (p1 p2 r1 r2 : string) :
  p1 +:+ r1 = p2 +:+ r2 → String.length p1 ≤ String.length p2 →
  ∃ m, p2 = p1 +:+ m ∧ r1 = m +:+ r2.
Proof.
  revert p2. induction p1 as [|c p1 IH]; intros p2 Heq Hlen.
  - by exists p2.
  - destruct p2 as [|d p2]; cbn in Hlen; [lia|].
    rewrite !string_app_cons in Heq. injection Heq as -> Heq.
    destruct (IH p2 Heq) as (m & -> & ->); [lia|]. by exists m.
Qed.

(** A text [o] found again [m] characters further on in a text that starts
    with [o]: then [m] followed by [o] starts with [o], whatever follows. *)
Lemma string_shifted_occurrence (o m x y : string) :
  o +:+ x = m +:+ o +:+ y →
  ∃ w, ∀ z, m +:+ o +:+ z = o +:+ w +:+ z.
Proof.
  intros Heq.
  destruct (decide (String.length o ≤ String.length m)) as [Hle|Hgt].
  - destruct (string_app_split_le o m x (o +:+ y) Heq Hle) as (m' & -> & _).
    exists (m' +:+ o). intros z. by rewrite !string_app_assoc.
  - symmetry in Heq.
    destruct (string_app_split_le m o (o +:+ y) x Heq) as (o' & Ho & Hx);
      [lia|].
    destruct (string_app_split_le o' o x y) as (o'' & Ho' & _).
    + by rewrite Hx.
    + apply (f_equal String.length) in Ho.
      rewrite string_app_length in Ho. lia.
    + exists o''. intros z.
      transitivity (m +:+ (o' +:+ o'') +:+ z); [by rewrite <- Ho'|].
      transitivity ((m +:+ o') +:+ o'' +:+ z);
        [by rewrite !string_app_assoc|by rewrite <- Ho].
Qed.

(** ** More on extraction *)

Lemma fence_close_length : String.length fence_close = 4.
Proof. reflexivity. Qed.

(** X2. The text that [match_code_blocks] returns never holds a closing
    fence, that is a newline followed by three backticks: the lazy group
    stops at the first one. *)
Theorem match_code_blocks_no_closing_fence (text a b : string) :
  match_code_blocks text ≠ a +:+ fence_close +:+ b.
Proof.
  unfold match_code_blocks.
  destruct (Re.search pattern text) as [gs|] eqn:Hs.
  - apply search_pattern_Some in Hs
      as (pre & body & post & [Hblock Hfirst] & ->).
    cbn. intros ->.
    destruct (Hfirst pre a (b +:+ fence_close +:+ post)) as [?|[_ Hlen]];
      [|lia|].
    + red. red in Hblock. by rewrite Hblock, !string_app_assoc.
    + rewrite !string_app_length, fence_close_length in Hlen. lia.
  - intros Heq. apply (f_equal String.length) in Heq.
    rewrite !string_app_length, fence_close_length in Heq. cbn in Heq. lia.
Qed.

(** X3. A non-empty text returned by [match_code_blocks] stands in the
    reply between an opening fence and a closing fence, and is the interior
    of the first block of the reply: nothing is returned that the reply does
    not fence. *)
Theorem match_code_blocks_nonempty_fenced (text : string) :
  match_code_blocks text ≠ "" →
  ∃ pre post,
    text = pre +:+ fence_open +:+ match_code_blocks text +:+ fence_close +:+ post ∧
    first_fenced_block text pre (match_code_blocks text) post.
Proof.
  unfold match_code_blocks.
  destruct (Re.search pattern text) as [gs|] eqn:Hs; [|done].
  apply search_pattern_Some in Hs as (pre & body & post & Hfirst & ->).
  cbn. intros _. exists pre, post. split; [apply Hfirst|done].
Qed.

Lemma match_code_blocks_nonempty_fenced_witness :
  ∃ pre post,
    Sample.two_blocks =
      pre +:+ fence_open +:+ match_code_blocks Sample.two_blocks +:+
      fence_close +:+ post ∧
    first_fenced_block Sample.two_blocks pre
      (match_code_blocks Sample.two_blocks) post.
Proof.
  apply (match_code_blocks_nonempty_fenced Sample.two_blocks).
  vm_compute. discriminate.
Defined.

(** The first block of a text stays the first block when the text goes on. *)
Lemma first_fenced_block_app (text pre body post suffix : string) :
  first_fenced_block text pre body post →
  first_fenced_block (text +:+ suffix) pre body (post +:+ suffix).
Proof.
  intros [Hblock Hfirst]. red in Hblock. split.
  { red. by rewrite Hblock, !string_app_assoc. }
  intros pre' body' post' Hblock'. red in Hblock'.
  rewrite Hblock, !string_app_assoc in Hblock'.
  destruct (decide (String.length pre < String.length pre')) as [|Hge];
    [by left|right].
  symmetry in Hblock'.
  destruct (string_app_split_le pre' pre _ _ Hblock') as (m & Hpre & Hrest);
    [lia|].
  destruct (string_shifted_occurrence fence_open m _ _ Hrest) as [w Hw].
  assert (pre' = pre ∧ m = "") as [-> ->].
  { destruct (Hfirst pre' (w +:+ body) post) as [?|[-> _]]; [|lia|].
    - red. rewrite Hblock, Hpre, !string_app_assoc. f_equal.
      by rewrite Hw.
    - split; [done|]. apply (f_equal String.length) in Hpre.
      rewrite string_app_length in Hpre. destruct m; [done|cbn in Hpre; lia]. }
  split; [done|]. rewrite string_app_nil_l in Hrest.
  apply (inj (String.app fence_open)) in Hrest.
  destruct (decide (String.length body ≤ String.length body')) as [|Hlt];
    [done|exfalso].
  destruct (string_app_split_le body' body _ _ Hrest) as (n & Hbody & Hrest');
    [lia|].
  destruct (string_shifted_occurrence fence_close n _ _ Hrest') as [v Hv].
  destruct (Hfirst pre body' (v +:+ post)) as [?|[_ ?]]; [|lia|lia].
  red. rewrite Hblock, Hbody, !string_app_assoc. do 3 f_equal.
  apply Hv.
Qed.

(** X4. Once a reply holds a fenced block, what is appended to the reply
    does not change the text that [match_code_blocks] returns. *)
Theorem match_code_blocks_app (text suffix : string) :
  has_fenced_block text →
  match_code_blocks (text +:+ suffix) = match_code_blocks text.
Proof.
  intros Hb.
  destruct (first_fenced_block_exists text Hb) as (pre & body & post & Hfirst).
  rewrite (match_code_blocks_of_first _ _ _ _ Hfirst).
  apply (match_code_blocks_of_first _ pre body (post +:+ suffix)).
  by apply first_fenced_block_app.
Qed.

Lemma match_code_blocks_app_witness :
  match_code_blocks (Sample.fenced "a = 1" +:+ Sample.two_blocks)
  = match_code_blocks (Sample.fenced "a = 1").
Proof.
  apply (match_code_blocks_app (Sample.fenced "a = 1") Sample.two_blocks).
  exists "", "a = 1", "". reflexivity.
Defined.

Lemma match_here_pattern_other_char (c : ascii) (s : string) :
  c ≠ "`"%char → Re.match_here pattern (String c s) = None.
Proof.
  intros Hc. apply match_here_pattern_None. intros body post Heq.
  assert (∃ r, fence_open = String "`" r) as [r Hr]
    by (eexists; reflexivity).
  rewrite Hr, string_app_cons in Heq. by injection Heq.
Qed.

(** X5. Text in front of a reply that holds no backtick does not change
    what [match_code_blocks] returns. *)
Theorem match_code_blocks_plain_prefix (prose text : string) :
  (∀ a b, prose ≠ a +:+ "`" +:+ b) →
  match_code_blocks (prose +:+ text) = match_code_blocks text.
Proof.
  induction prose as [|c prose IH]; intros Hplain; [done|].
  rewrite string_app_cons. unfold match_code_blocks in *. cbn [Re.search].
  rewrite match_here_pattern_other_char.
  - apply IH. intros a b ->. by apply (Hplain (String c a) b).
  - intros ->. by apply (Hplain "" prose).
Qed.

Lemma match_code_blocks_plain_prefix_witness :
  match_code_blocks ("Here is the code:" +:+ Sample.fenced "a = 1")
  = match_code_blocks (Sample.fenced "a = 1").
Proof.
  apply (match_code_blocks_plain_prefix "Here is the code:").
  intros a b Heq.
  assert (Re.search [Re.LITERAL "`"] "Here is the code:" = None) as Hn
    by (vm_compute; reflexivity).
  rewrite search_None in Hn. specialize (Hn a _ Heq).
  rewrite match_here_literal_None in Hn. by destruct (Hn b).
Defined.

(** ** More on a turn *)

Section Turn.
Context `{Environment}.

Ltac run_unfold :=
  unfold mbind, M_bind, mret, M_ret, mthrow, M_throw, when, print, emit,
    call, lift, session_get, with_outside.

Lemma diagnostics_not_external (stdout_capture stderr_capture : string) :
  filter (λ e, external e = true) (diagnostics stdout_capture stderr_capture)
  = [].
Proof.
  unfold diagnostics.
  by destruct (nonempty stderr_capture), (nonempty stdout_capture).
Qed.

Lemma error_report_not_external (exec : Execution) :
  filter (λ e, external e = true) (error_report exec) = [].
Proof. unfold error_report. by destruct (error exec). Qed.

Lemma code_interpret_external_events (code : string) (st : state) :
  filter (λ e, external e = true) (trace (code_interpret code st))
  = [RunCode code].
Proof.
  destruct (run_code code (outside st)) as [[[[out err] exec]|e] w] eqn:Hrun.
  - rewrite (code_interpret_run _ _ _ _ _ _ Hrun). cbn [trace fst].
    rewrite !filter_app, diagnostics_not_external, error_report_not_external.
    reflexivity.
  - by rewrite (code_interpret_raise _ _ _ _ Hrun).
Qed.

(** X6. Whatever the sandbox does (answer with or without an error, or
    raise), a call of [code_interpret] submits the code once, as it was
    given, and calls no other service. *)
Theorem code_interpret_one_submission (code : string) (st : state) :
  filter (λ e, external e = true) (trace (code_interpret code st))
  = [RunCode code] ∧
  ∀ code', RunCode code' ∈ trace (code_interpret code st) → code' = code.
Proof.
  split; [apply code_interpret_external_events|].
  intros code' Hin.
  assert (RunCode code' ∈ filter (λ e, external e = true)
                            (trace (code_interpret code st))) as Hf.
  { apply list_elem_of_filter. by split. }
  rewrite code_interpret_external_events in Hf.
  apply list_elem_of_singleton in Hf. by injection Hf.
Qed.

(** X7. When the sandbox answers, [code_interpret] returns [None] exactly
    when the answer carries an error; without one it returns the results of
    the execution, in their order.  So [None] never stands for a run
    without results. *)
Theorem code_interpret_none_iff_error (code : string) (st : state)
    (stdout_capture stderr_capture : string) (exec : Execution) (w : world) :
  run_code code (outside st) =
    (Return (stdout_capture, stderr_capture, exec), w) →
  (result (code_interpret code st) = Return None ↔ is_Some (error exec)) ∧
  (error exec = None →
   result (code_interpret code st) = Return (Some (results exec))).
Proof.
  intros Hrun. rewrite (code_interpret_run _ _ _ _ _ _ Hrun).
  cbn [result snd]. unfold returned_results.
  destruct (error exec) as [e|].
  - split; [|done]. split; [by eauto|done].
  - split; [|done]. split; [done|]. by intros [? ?].
Qed.

(** *** The ways [chat_with_llm] ends *)

Lemma chat_with_llm_completion_raises (user_message dataset_path : string)
    (st : state) (api_key model : string) (e : exn) (w : world) :
  session_state st !! "together_api_key" = Some api_key →
  session_state st !! "model_name" = Some model →
  completions_create api_key model
    (chat_messages user_message dataset_path) (outside st) = (Raise e, w) →
  chat_with_llm user_message dataset_path st =
    ([StSpinner "Getting response from Together AI LLM model...";
      CompletionsCreate api_key model
        (chat_messages user_message dataset_path)],
     with_outside st w, Raise e).
Proof.
  intros Hkey Hmodel Hcreate. unfold chat_with_llm. run_unfold.
  cbn -[match_code_blocks chat_messages code_interpret].
  rewrite Hkey, Hmodel. cbn -[match_code_blocks chat_messages code_interpret].
  by rewrite Hcreate.
Qed.

Lemma chat_with_llm_bad_response (user_message dataset_path : string)
    (st : state) (api_key model : string) (response : ChatCompletion)
    (w : world) :
  session_state st !! "together_api_key" = Some api_key →
  session_state st !! "model_name" = Some model →
  completions_create api_key model
    (chat_messages user_message dataset_path) (outside st)
    = (Return response, w) →
  head response = None ∨ head response = Some None →
  chat_with_llm user_message dataset_path st =
    ([StSpinner "Getting response from Together AI LLM model...";
      CompletionsCreate api_key model
        (chat_messages user_message dataset_path)],
     with_outside st w,
     Raise (match response with
            | [] => {| exn_class := "IndexError";
                       exn_str := "list index out of range" |}
            | _ => {| exn_class := "TypeError";
                      exn_str := "expected string or bytes-like object" |}
            end)).
Proof.
  intros Hkey Hmodel Hcreate Hhead. unfold chat_with_llm. run_unfold.
  cbn -[match_code_blocks chat_messages code_interpret].
  rewrite Hkey, Hmodel. cbn -[match_code_blocks chat_messages code_interpret].
  rewrite Hcreate. destruct response as [|[text|] rest]; cbn in Hhead |- *;
    [done| |done].
  by destruct Hhead.
Qed.

Lemma chat_with_llm_missing_key (user_message dataset_path : string)
    (st : state) :
  session_state st !! "together_api_key" = None ∨
  session_state st !! "model_name" = None →
  ∃ e, chat_with_llm user_message dataset_path st =
         ([StSpinner "Getting response from Together AI LLM model..."],
          st, Raise e).
Proof.
  intros Hmiss. unfold chat_with_llm. run_unfold.
  cbn -[match_code_blocks chat_messages code_interpret].
  destruct (session_state st !! "together_api_key") as [k|];
    cbn -[match_code_blocks chat_messages code_interpret]; [|by eexists].
  destruct (session_state st !! "model_name") as [m|];
    cbn -[match_code_blocks chat_messages code_interpret]; [|by eexists].
  by destruct Hmiss.
Qed.

(** X8. A failure of a service is not caught by [chat_with_llm]: when the
    completion call raises, or when the run of the extracted code raises,
    [chat_with_llm] raises the same exception.  In the second case the reply
    that had been received is not returned, and nothing is printed. *)
Theorem chat_with_llm_service_failure (user_message dataset_path : string)
    (st : state) (api_key model : string) (e : exn) :
  session_state st !! "together_api_key" = Some api_key →
  session_state st !! "model_name" = Some model →
  (∀ w,
     completions_create api_key model
       (chat_messages user_message dataset_path) (outside st) = (Raise e, w) →
     chat_with_llm user_message dataset_path st =
       ([StSpinner "Getting response from Together AI LLM model...";
         CompletionsCreate api_key model
           (chat_messages user_message dataset_path)],
        with_outside st w, Raise e)) ∧
  (∀ text rest w1 w2,
     completions_create api_key model
       (chat_messages user_message dataset_path) (outside st)
       = (Return (Some text :: rest), w1) →
     match_code_blocks text ≠ "" →
     run_code (match_code_blocks text) w1 = (Raise e, w2) →
     chat_with_llm user_message dataset_path st =
       ([StSpinner "Getting response from Together AI LLM model...";
         CompletionsCreate api_key model
           (chat_messages user_message dataset_path);
         StSpinner "Executing code in E2B sandbox...";
         RunCode (match_code_blocks text)],
        with_outside st w2, Raise e)).
Proof.
  intros Hkey Hmodel. split.
  - intros w Hcreate. by apply chat_with_llm_completion_raises.
  - intros text rest w1 w2 Hcreate Hcode Hrun.
    rewrite (chat_with_llm_run _ _ _ _ _ _ _ _ Hkey Hmodel Hcreate).
    unfold nonempty. rewrite bool_decide_eq_true_2 by done.
    by rewrite (code_interpret_raise _ (with_outside st w1) _ _ Hrun).
Qed.

(** X9. A completion that has no choice, or whose first choice has no
    content, makes [chat_with_llm] raise ([IndexError] for the first,
    [TypeError] for the second) right after the completion call: no warning
    is shown and no code is run. *)
Theorem chat_with_llm_unusable_response (user_message dataset_path : string)
    (st : state) (api_key model : string) (response : ChatCompletion)
    (w : world) :
  session_state st !! "together_api_key" = Some api_key →
  session_state st !! "model_name" = Some model →
  completions_create api_key model
    (chat_messages user_message dataset_path) (outside st)
    = (Return response, w) →
  head response = None ∨ head response = Some None →
  trace (chat_with_llm user_message dataset_path st) =
    [StSpinner "Getting response from Together AI LLM model...";
     CompletionsCreate api_key model
       (chat_messages user_message dataset_path)] ∧
  ∃ e, result (chat_with_llm user_message dataset_path st) = Raise e ∧
       exn_class e = (if decide (response = []) then "IndexError"
                      else "TypeError").
Proof.
  intros Hkey Hmodel Hcreate Hhead.
  rewrite (chat_with_llm_bad_response _ _ _ _ _ _ _
             Hkey Hmodel Hcreate Hhead).
  split; [done|]. eexists. split; [done|]. by destruct response.
Qed.

Lemma code_interpret_run_code (code code' : string) (st : state) :
  RunCode code' ∈ trace (code_interpret code st) → code' = code.
Proof.
  intros Hin.
  assert (RunCode code' ∈ filter (λ e, external e = true)
                            (trace (code_interpret code st))) as Hf.
  { apply list_elem_of_filter. by split. }
  rewrite code_interpret_external_events in Hf.
  apply list_elem_of_singleton in Hf. by injection Hf.
Qed.

(** X10. The only code that [chat_with_llm] has run is the text that
    [match_code_blocks] takes from the first choice of the completion of
    that same call, and that text is not empty. *)
Theorem chat_with_llm_runs_extracted_code (user_message dataset_path : string)
    (st : state) (code : string) :
  RunCode code ∈ trace (chat_with_llm user_message dataset_path st) →
  ∃ api_key model text rest w,
    session_state st !! "together_api_key" = Some api_key ∧
    session_state st !! "model_name" = Some model ∧
    completions_create api_key model
      (chat_messages user_message dataset_path) (outside st)
      = (Return (Some text :: rest), w) ∧
    code = match_code_blocks text ∧ code ≠ "".
Proof.
  intros Hin.
  destruct (session_state st !! "together_api_key") as [api_key|] eqn:Hkey.
  2:{ destruct (chat_with_llm_missing_key user_message dataset_path st)
        as [e He]; [by left|].
      rewrite He in Hin. cbn in Hin.
      apply list_elem_of_singleton in Hin. done. }
  destruct (session_state st !! "model_name") as [model|] eqn:Hmodel.
  2:{ destruct (chat_with_llm_missing_key user_message dataset_path st)
        as [e He]; [by right|].
      rewrite He in Hin. cbn in Hin.
      apply list_elem_of_singleton in Hin. done. }
  destruct (completions_create api_key model
              (chat_messages user_message dataset_path) (outside st))
    as [[response|e] w] eqn:Hcreate.
  2:{ rewrite (chat_with_llm_completion_raises _ _ _ _ _ _ _
                 Hkey Hmodel Hcreate) in Hin.
      cbn in Hin. rewrite !elem_of_cons, elem_of_nil in Hin.
      by destruct Hin as [|[|]]. }
  destruct response as [|[text|] rest].
  1,3: rewrite (chat_with_llm_bad_response _ _ _ _ _ _ _
                  Hkey Hmodel Hcreate) in Hin by (cbn; auto);
       cbn in Hin; rewrite !elem_of_cons, elem_of_nil in Hin;
       by destruct Hin as [|[|]].
  rewrite (chat_with_llm_run _ _ _ _ _ _ _ _ Hkey Hmodel Hcreate) in Hin.
  unfold nonempty in Hin.
  destruct (decide (match_code_blocks text = "")) as [Hempty|Hcode].
  - rewrite bool_decide_eq_false_2 in Hin by (by intros ?).
    cbn in Hin. rewrite !elem_of_cons, elem_of_nil in Hin.
    by destruct Hin as [|[|[|]]].
  - rewrite bool_decide_eq_true_2 in Hin by done.
    destruct (code_interpret _ _) as [[tr st'] o] eqn:Hci. cbn in Hin.
    rewrite !elem_of_cons in Hin. destruct Hin as [|[|Hin]]; [done..|].
    assert (code = match_code_blocks text) as ->.
    { apply (code_interpret_run_code _ _ (with_outside st w)).
      by rewrite Hci. }
    by exists api_key, model, text, rest, w.
Qed.

(** X11. Whenever [chat_with_llm] returns, the text it returns is the
    content of the first choice of the completion, and the results it
    returns are [None] when that text yields no code and otherwise what the
    run of the extracted code gave: [None] for an error, the results of the
    execution without one. *)
Theorem chat_with_llm_returns (user_message dataset_path : string)
    (st : state) (code_results : option (list Result)) (text : string) :
  result (chat_with_llm user_message dataset_path st)
    = Return (code_results, text) →
  ∃ api_key model rest w,
    session_state st !! "together_api_key" = Some api_key ∧
    session_state st !! "model_name" = Some model ∧
    completions_create api_key model
      (chat_messages user_message dataset_path) (outside st)
      = (Return (Some text :: rest), w) ∧
    ((match_code_blocks text = "" ∧ code_results = None) ∨
     (match_code_blocks text ≠ "" ∧
      ∃ stdout_capture stderr_capture exec w',
        run_code (match_code_blocks text) w
          = (Return (stdout_capture, stderr_capture, exec), w') ∧
        code_results = returned_results exec)).
Proof.
  intros Hres.
  destruct (session_state st !! "together_api_key") as [api_key|] eqn:Hkey.
  2:{ destruct (chat_with_llm_missing_key user_message dataset_path st)
        as [e He]; [by left|]. by rewrite He in Hres. }
  destruct (session_state st !! "model_name") as [model|] eqn:Hmodel.
  2:{ destruct (chat_with_llm_missing_key user_message dataset_path st)
        as [e He]; [by right|]. by rewrite He in Hres. }
  destruct (completions_create api_key model
              (chat_messages user_message dataset_path) (outside st))
    as [[response|e] w] eqn:Hcreate.
  2:{ by rewrite (chat_with_llm_completion_raises _ _ _ _ _ _ _
                    Hkey Hmodel Hcreate) in Hres. }
  destruct response as [|[text'|] rest].
  1,3: by rewrite (chat_with_llm_bad_response _ _ _ _ _ _ _
                     Hkey Hmodel Hcreate) in Hres by (cbn; auto).
  destruct (decide (match_code_blocks text' = "")) as [Hempty|Hcode].
  - rewrite (chat_with_llm_without_code _ _ _ _ _ _ _ _
               Hkey Hmodel Hcreate Hempty) in Hres.
    injection Hres as <- <-. exists api_key, model, rest, w.
    do 3 (split; [done|]). by left.
  - destruct (run_code (match_code_blocks text') w)
      as [[[[out err] exec]|e] w'] eqn:Hrun.
    + rewrite (chat_with_llm_with_code _ _ _ _ _ _ _ _ _ _ _ _
                 Hkey Hmodel Hcreate Hcode Hrun) in Hres.
      injection Hres as <- <-. exists api_key, model, rest, w.
      do 3 (split; [done|]). right. split; [done|].
      by exists out, err, exec, w'.
    + rewrite (chat_with_llm_run _ _ _ _ _ _ _ _ Hkey Hmodel Hcreate) in Hres.
      unfold nonempty in Hres. rewrite bool_decide_eq_true_2 in Hres by done.
      by rewrite (code_interpret_raise _ (with_outside st w) _ _ Hrun) in Hres.
Qed.

(** X1. A reply whose first fenced block has an empty interior is taken as
    a reply without code: [chat_with_llm] shows the warning, runs nothing and
    returns [None] and the reply. *)
Theorem chat_with_llm_empty_block (user_message dataset_path : string)
    (st : state) (api_key model text pre post : string)
    (rest : ChatCompletion) (w : world) :
  session_state st !! "together_api_key" = Some api_key →
  session_state st !! "model_name" = Some model →
  completions_create api_key model
    (chat_messages user_message dataset_path) (outside st)
    = (Return (Some text :: rest), w) →
  first_fenced_block text pre "" post →
  chat_with_llm user_message dataset_path st =
    ([StSpinner "Getting response from Together AI LLM model...";
      CompletionsCreate api_key model
        (chat_messages user_message dataset_path);
      StWarning "No Python code block detected in LLM response."],
     with_outside st w, Return (None, text)).
Proof.
  intros Hkey Hmodel Hcreate Hfirst.
  apply (chat_with_llm_without_code _ _ _ _ _ _ rest); [done..|].
  by apply (match_code_blocks_of_first text pre "" post).
Qed.

End Turn.

(** ** More on the rendering loop *)

Section Rendering.
Context `{Environment}.

Lemma display_shows (res : Result) (st : state) :
  (classify res = image →
   ∃ img, image_open_b64decode (getattr res "png") = Return img) →
  ∃ e, display res st = ([e], st, Return ()) ∧
       rendered_as e = Some (classify res).
Proof.
  intros Hdecode. unfold display.
  destruct (classify res) eqn:Hc; try (by eexists).
  destruct Hdecode as [img Himg]; [done|].
  unfold lift, mbind, M_bind. rewrite Himg. by eexists.
Qed.

Lemma display_decode_failure (res : Result) (st : state) (e : exn) :
  classify res = image →
  image_open_b64decode (getattr res "png") = Raise e →
  display res st = ([], st, Raise e).
Proof.
  intros Hc Himg. unfold display. rewrite Hc.
  unfold lift, mbind, M_bind. by rewrite Himg.
Qed.

(** X12. When every result that classifies as an image has a payload that
    decodes, the loop of lines 155-167 makes one Streamlit call per result,
    in the order of the results and each of the category of its result, and
    ends normally. *)
Theorem for_each_display_in_order (code_results : list Result) (st : state) :
  (∀ res, res ∈ code_results → classify res = image →
          ∃ img, image_open_b64decode (getattr res "png") = Return img) →
  rendered_as <$> trace (for_each display code_results st)
    = (λ res, Some (classify res)) <$> code_results ∧
  final (for_each display code_results st) = st ∧
  result (for_each display code_results st) = Return ().
Proof.
  induction code_results as [|res rs IH]; intros Hdecode; [done|].
  destruct (display_shows res st) as (e & Hd & He).
  { intros Hc. apply Hdecode; [by left|done]. }
  destruct IH as (IHt & IHf & IHr).
  { intros r Hr. apply Hdecode. by right. }
  cbn [for_each]. rewrite bind_run, Hd.
  destruct (for_each display rs st) as [[tr st'] o]. cbn in *.
  subst. by rewrite He, IHt.
Qed.

(** X13. A result that classifies as an image and whose payload does not
    decode ends the loop with the exception of the decoder: the results
    before it have been shown, it and the results after it are not. *)
Theorem for_each_display_stops (shown later : list Result) (res : Result)
    (st : state) (e : exn) :
  (∀ r, r ∈ shown → classify r = image →
        ∃ img, image_open_b64decode (getattr r "png") = Return img) →
  classify res = image →
  image_open_b64decode (getattr res "png") = Raise e →
  rendered_as <$> trace (for_each display (shown ++ res :: later) st)
    = (λ r, Some (classify r)) <$> shown ∧
  result (for_each display (shown ++ res :: later) st) = Raise e.
Proof.
  intros Hdecode Hc Himg. induction shown as [|r rs IH].
  - cbn [app for_each]. rewrite bind_run.
    by rewrite (display_decode_failure res st e).
  - destruct (display_shows r st) as (ev & Hd & Hev).
    { intros Hr. apply Hdecode; [by left|done]. }
    destruct IH as [IHt IHr].
    { intros r' Hr'. apply Hdecode. by right. }
    cbn [app for_each]. rewrite bind_run, Hd.
    destruct (for_each display (rs ++ res :: later) st) as [[tr st'] o].
    cbn in *. subst. by rewrite Hev, IHt.
Qed.

End Rendering.

(** ** More on [main] *)

Section Main.
Context `{Environment}.

Ltac run_unfold :=
  unfold mbind, M_bind, mret, M_ret, mthrow, M_throw, when, print, emit,
    call, lift, session_get, with_outside.

(** *** Rules of the second program logic *)

Lemma keeps_ret {A} (a : A) J P : keeps J P (mret a).
Proof. intros st _. split; [constructor|done]. Qed.

Lemma keeps_throw {A} (e : exn) J P : keeps (A := A) J P (mthrow e).
Proof. intros st _. split; [constructor|done]. Qed.

Lemma keeps_bind {A B} (m : M A) (f : A → M B) J P :
  keeps J P m → (∀ a, keeps J P (f a)) → keeps J P (m ≫= f).
Proof.
  intros Hm Hf st HJ. destruct (Hm st HJ) as [Htr Hs].
  rewrite bind_run. unfold trace, final in *.
  destruct (m st) as [[tr st'] [a|e]]; cbn in *; [|done].
  rewrite <- Hs in HJ. destruct (Hf a st' HJ) as [Htr' Hs'].
  unfold trace, final in *.
  destruct (f a st') as [[tr' st''] o]; cbn in *.
  split; [by apply Forall_app|congruence].
Qed.

Lemma keeps_emit (e : event) J (P : event → Prop) : P e → keeps J P (emit e).
Proof. intros HP st _. split; [by repeat constructor|done]. Qed.

Lemma keeps_call {A} (e : event) (f : world → outcome A * world) J
    (P : event → Prop) :
  P e → keeps J P (call e f).
Proof.
  intros HP st _. unfold call. destruct (f (outside st)) as [o w].
  split; [by repeat constructor|done].
Qed.

Lemma keeps_lift {A} (o : outcome A) J P : keeps J P (lift o).
Proof. intros st _. split; [constructor|done]. Qed.

(** Reading the session: what follows may use what was read. *)
Lemma keeps_session_get {B} (key : string) (f : string → M B) J P :
  (∀ v, keeps (λ d, J d ∧ d !! key = Some v) P (f v)) →
  keeps J P (session_get key ≫= f).
Proof.
  intros Hf st HJ. rewrite bind_run. unfold session_get.
  destruct (session_state st !! key) as [v|] eqn:Hv; cbn.
  - destruct (Hf v st) as [Htr Hs]; [done|]. unfold trace, final in *.
    by destruct (f v st) as [[tr st'] o].
  - split; [constructor|done].
Qed.

Lemma keeps_weaken {A} (m : M A) (J J' : gmap string string → Prop) P :
  keeps J P m → (∀ d, J' d → J d) → keeps J' P m.
Proof. intros Hm HJ st HJ'. apply Hm. by apply HJ. Qed.

Lemma keeps_when (b : bool) (m : M ()) J P :
  keeps J P m → keeps J P (when b m).
Proof. intros Hm. destruct b; [done|]. apply keeps_ret. Qed.

Lemma keeps_finally {A} (m : M A) (fin : M ()) J P :
  keeps J P m → keeps J P fin → keeps J P (finally m fin).
Proof.
  intros Hm Hfin st HJ. unfold finally.
  destruct (Hm st HJ) as [Htr Hs]. unfold trace, final in *.
  destruct (m st) as [[tr st'] o]; cbn in *.
  rewrite <- Hs in HJ. destruct (Hfin st' HJ) as [Htr' Hs'].
  unfold trace, final in *.
  destruct (fin st') as [[tr' st''] [[]|e]]; cbn in *;
    (split; [by apply Forall_app|congruence]).
Qed.

Lemma keeps_try_except {A} (m : M A) (handler : exn → M A) J P :
  keeps J P m → (∀ e, keeps J P (handler e)) →
  keeps J P (try_except m handler).
Proof.
  intros Hm Hh st HJ. unfold try_except.
  destruct (Hm st HJ) as [Htr Hs]. unfold trace, final in *.
  destruct (m st) as [[tr st'] [a|e]]; cbn in *; [done|].
  rewrite <- Hs in HJ. destruct (Hh e st' HJ) as [Htr' Hs'].
  unfold trace, final in *.
  destruct (handler e st') as [[tr' st''] o]; cbn in *.
  split; [by apply Forall_app|congruence].
Qed.

Lemma keeps_for_each {A} (body : A → M ()) (xs : list A) J P :
  (∀ x, keeps J P (body x)) → keeps J P (for_each body xs).
Proof.
  intros Hbody. induction xs as [|x xs IH]; cbn.
  - apply keeps_ret.
  - apply keeps_bind; [apply Hbody|]. by intros [].
Qed.

(** *** The functions in the second logic *)

Section Functions.
Variable J : gmap string string → Prop.
Variable P : event → Prop.
Hypothesis P_local : ∀ e, external e = false → P e.
Hypothesis P_run : ∀ code, P (RunCode code).
Hypothesis P_write : ∀ path data, P (FilesWrite path data).
Hypothesis P_exit : P SandboxExit.
Hypothesis P_create :
  ∀ d api_key model messages,
    J d → d !! "together_api_key" = Some api_key →
    d !! "model_name" = Some model →
    P (CompletionsCreate api_key model messages).
Hypothesis P_enter :
  ∀ d api_key, J d → d !! "e2b_api_key" = Some api_key →
               P (SandboxEnter api_key).

Ltac prim :=
  first
    [ apply keeps_ret
    | apply keeps_throw
    | apply keeps_emit; first [by apply P_local|apply P_run|apply P_write]
    | apply keeps_call; first [by apply P_local|apply P_run|apply P_write|apply P_exit]
    | apply keeps_lift ].

Ltac step := apply keeps_bind; [prim|intros _].
Tactic Notation "step" "as" simple_intropattern(x) :=
  apply keeps_bind; [prim|intros x].

Lemma keeps_code_interpret (J' : gmap string string → Prop) (code : string) :
  keeps J' P (code_interpret code).
Proof.
  unfold code_interpret, print. step.
  step as [[stdout_capture stderr_capture] exec].
  apply keeps_bind; [apply keeps_when; step; prim|intros _].
  apply keeps_bind; [apply keeps_when; step; prim|intros _].
  destruct (error exec); [step|]; prim.
Qed.

Lemma keeps_chat_with_llm (user_message dataset_path : string) :
  keeps J P (chat_with_llm user_message dataset_path).
Proof.
  unfold chat_with_llm. cbn zeta. step.
  apply keeps_session_get. intros api_key.
  apply keeps_session_get. intros model.
  apply keeps_bind; [|intros response].
  { intros st [[HJ Hkey] Hmodel]. apply (keeps_call _ _ (λ _, True)); [|done].
    by apply (P_create (session_state st)). }
  apply keeps_bind; [destruct response; prim|intros message].
  apply keeps_bind; [destruct message; prim|intros text].
  destruct (nonempty _); [|step; prim].
  apply keeps_bind; [apply keeps_code_interpret|].
  intros code_results. prim.
Qed.

Lemma keeps_upload_dataset (J' : gmap string string → Prop)
    (uploaded_file : UploadedFile) :
  keeps J' P (upload_dataset uploaded_file).
Proof.
  unfold upload_dataset. cbn zeta. apply keeps_try_except.
  - step. prim.
  - intros e. step. prim.
Qed.

Lemma keeps_display (J' : gmap string string → Prop) (res : Result) :
  keeps J' P (display res).
Proof. unfold display. destruct (classify res); [step as img|..]; prim. Qed.

Lemma keeps_in_sandbox (uploaded_file : UploadedFile) (query : string) :
  keeps J P (in_sandbox uploaded_file query).
Proof.
  unfold in_sandbox.
  apply keeps_bind; [apply keeps_upload_dataset|intros dataset_path].
  apply keeps_bind; [apply keeps_chat_with_llm|].
  intros [code_results llm_response]. step. step.
  apply keeps_when, keeps_for_each. intros res. apply keeps_display.
Qed.

Lemma keeps_analyze (uploaded_file : UploadedFile) (query : string) :
  keeps J P (analyze uploaded_file query).
Proof.
  unfold analyze. apply keeps_session_get. intros together_api_key.
  apply keeps_bind; [|intros missing].
  { destruct (nonempty together_api_key); [|prim].
    apply keeps_session_get. intros e2b_api_key. prim. }
  destruct missing; [prim|].
  apply keeps_session_get. intros e2b_api_key.
  unfold with_sandbox. apply keeps_bind; [|intros _].
  { intros st [[HJ _] Hkey]. apply (keeps_call _ _ (λ _, True)); [|done].
    by apply (P_enter (session_state st)). }
  apply keeps_weaken with J; [|by intros d [[? _] _]].
  apply keeps_finally; [|prim].
  apply keeps_in_sandbox.
Qed.

End Functions.

(** *** The [with] statement *)

Lemma with_sandbox_refused {A} (api_key : string) (body : M A) (st : state)
    (e : exn) (w : world) :
  sandbox_enter api_key (outside st) = (Raise e, w) →
  with_sandbox api_key body st =
    ([SandboxEnter api_key], with_outside st w, Raise e).
Proof.
  intros Henter. unfold with_sandbox. run_unfold. cbn. by rewrite Henter.
Qed.

Lemma with_sandbox_entered {A} (api_key : string) (body : M A) (st : state)
    (w : world) :
  sandbox_enter api_key (outside st) = (Return (), w) →
  trace (with_sandbox api_key body st) =
    SandboxEnter api_key :: trace (body (with_outside st w)) ++ [SandboxExit] ∧
  result (with_sandbox api_key body st) =
    match sandbox_exit (outside (final (body (with_outside st w)))) with
    | (Return _, _) => result (body (with_outside st w))
    | (Raise e, _) => Raise e
    end.
Proof.
  intros Henter. unfold with_sandbox, finally. run_unfold. cbn.
  rewrite Henter. cbn.
  destruct (body _) as [[tr st'] o]. cbn.
  by destruct (sandbox_exit (outside st')) as [[[]|e] w'].
Qed.

Lemma analyze_with_keys (uploaded_file : UploadedFile) (query : string)
    (st : state) (together_api_key e2b_api_key : string) :
  session_state st !! "together_api_key" = Some together_api_key →
  session_state st !! "e2b_api_key" = Some e2b_api_key →
  together_api_key ≠ "" → e2b_api_key ≠ "" →
  analyze uploaded_file query st =
    with_sandbox e2b_api_key (in_sandbox uploaded_file query) st.
Proof.
  intros Hk1 Hk2 Hne1 Hne2. unfold analyze, in_sandbox, with_sandbox, finally.
  run_unfold. cbn -[upload_dataset chat_with_llm for_each display].
  rewrite Hk1. cbn -[upload_dataset chat_with_llm for_each display].
  unfold nonempty. rewrite (bool_decide_eq_true_2 (together_api_key ≠ "")) by done.
  rewrite Hk2. cbn -[upload_dataset chat_with_llm for_each display].
  rewrite (bool_decide_eq_true_2 (e2b_api_key ≠ "")) by done.
  cbn -[upload_dataset chat_with_llm for_each display].
  rewrite Hk2. cbn -[upload_dataset chat_with_llm for_each display].
  match goal with |- _ = ?r => generalize r end.
  by intros [[tr st'] o].
Qed.

(** *** [main], case by case *)

Lemma main_unfold (ui : widgets) (st : state) :
  main ui st =
    match model_options !! selected_model ui with
    | None =>
        (sidebar_events, with_session st (keyed ui (session_state st)),
         Raise {| exn_class := "KeyError"; exn_str := selected_model ui |})
    | Some model =>
        let st1 := with_session st (configured ui model (session_state st)) in
        match uploaded ui with
        | None => (sidebar_events, st1, Return ())
        | Some uploaded_file =>
            match read_csv uploaded_file with
            | Raise e => (sidebar_events, st1, Raise e)
            | Return df =>
                if analyze_pressed ui then
                  match analyze uploaded_file (query_text ui) st1 with
                  | (tr, st', o) =>
                      (sidebar_events ++ preview_events ui df ++ tr, st', o)
                  end
                else (sidebar_events ++ preview_events ui df, st1, Return ())
            end
        end
    end.
Proof.
  unfold main.
  unfold mbind, M_bind, mret, M_ret, mthrow, M_throw, when, emit,
    session_set, session_setdefault, lift.
  cbn -[analyze model_options].
  destruct (model_options !! selected_model ui) as [model|];
    cbn -[analyze model_options]; [|done].
  destruct (uploaded ui) as [f|]; cbn -[analyze model_options]; [|done].
  destruct (read_csv f) as [df|e]; cbn -[analyze model_options]; [|done].
  unfold preview_events.
  destruct (analyze_pressed ui), (show_full_dataset ui);
    cbn -[analyze model_options]; try done;
    by destruct (analyze _ _ _) as [[tr st'] o].
Qed.

Lemma configured_lookup (ui : widgets) (model : string)
    (d : gmap string string) :
  configured ui model d !! "together_api_key"
    = Some (together_api_key_input ui) ∧
  configured ui model d !! "e2b_api_key" = Some (e2b_api_key_input ui) ∧
  configured ui model d !! "model_name" = Some model.
Proof. unfold configured, keyed. by simplify_map_eq. Qed.

Lemma sidebar_events_local (P : event → Prop) :
  (∀ e, external e = false → P e) → Forall P sidebar_events.
Proof. intros HP. unfold sidebar_events. repeat constructor; by apply HP. Qed.

Lemma preview_events_local (P : event → Prop) (ui : widgets) (df : DataFrame) :
  (∀ e, external e = false → P e) → Forall P (preview_events ui df).
Proof.
  intros HP. unfold preview_events.
  destruct (show_full_dataset ui); repeat constructor; by apply HP.
Qed.

(** Every event of a run of [main] satisfies [P] when the events of the
    [Analyze] branch do and the local events do. *)
Lemma main_events (P : event → Prop) (ui : widgets) (st : state) :
  (∀ e, external e = false → P e) →
  (∀ uploaded_file df model,
     uploaded ui = Some uploaded_file →
     read_csv uploaded_file = Return df →
     model_options !! selected_model ui = Some model →
     analyze_pressed ui = true →
     Forall P (trace (analyze uploaded_file (query_text ui)
                        (with_session st
                           (configured ui model (session_state st)))))) →
  Forall P (trace (main ui st)).
Proof.
  intros Hlocal Hanalyze. rewrite main_unfold.
  destruct (model_options !! selected_model ui) as [model|];
    [|by apply sidebar_events_local].
  cbn zeta. destruct (uploaded ui) as [f|]; [|by apply sidebar_events_local].
  destruct (read_csv f) as [df|e] eqn:Hcsv; [|by apply sidebar_events_local].
  destruct (analyze_pressed ui).
  - specialize (Hanalyze f df model eq_refl Hcsv eq_refl eq_refl).
    destruct (analyze _ _ _) as [[tr st'] o]. unfold trace in *.
    cbn [fst] in *.
    rewrite !Forall_app. split; [by apply sidebar_events_local|].
    split; [by apply preview_events_local|done].
  - unfold trace. cbn [fst].
    rewrite Forall_app. split; [by apply sidebar_events_local|].
    by apply preview_events_local.
Qed.

Lemma main_external_all (ui : widgets) (st : state) :
  Forall (λ e, external e = true →
            ∃ uploaded_file df model,
              uploaded ui = Some uploaded_file ∧
              read_csv uploaded_file = Return df ∧
              model_options !! selected_model ui = Some model ∧
              analyze_pressed ui = true ∧
              together_api_key_input ui ≠ "" ∧ e2b_api_key_input ui ≠ "")
    (trace (main ui st)).
Proof.
  apply main_events; [intros; congruence|].
  intros f df model Hf Hcsv Hmodel Hpressed.
  destruct (configured_lookup ui model (session_state st))
    as (Hk1 & Hk2 & _).
  destruct (decide (together_api_key_input ui = "" ∨
                    e2b_api_key_input ui = "")) as [Hempty|Hkeys].
  - rewrite (analyze_missing_keys f (query_text ui)
               (with_session st (configured ui model (session_state st)))
               _ _ Hk1 Hk2 Hempty).
    by repeat constructor.
  - apply Forall_forall. intros e' _ _. exists f, df, model.
    repeat (split; [done|]). split; tauto.
Qed.

(** X14. A run of [main] calls a service only if a file is uploaded and
    read by [read_csv], the selected model is one of [model_options], the
    button is pressed and both keys are entered non-empty. *)
Theorem main_external_requires (ui : widgets) (st : state) (e : event) :
  e ∈ trace (main ui st) → external e = true →
  ∃ uploaded_file df model,
    uploaded ui = Some uploaded_file ∧
    read_csv uploaded_file = Return df ∧
    model_options !! selected_model ui = Some model ∧
    analyze_pressed ui = true ∧
    together_api_key_input ui ≠ "" ∧ e2b_api_key_input ui ≠ "".
Proof.
  intros Hin Hext.
  pose proof (main_external_all ui st) as Hall.
  rewrite Forall_forall in Hall.
  destruct (Hall e Hin Hext) as (f & df & model & Hrest).
  by exists f, df, model.
Qed.

Lemma main_reaches_analyze (ui : widgets) (st : state)
    (uploaded_file : UploadedFile) (df : DataFrame) (model : string) :
  uploaded ui = Some uploaded_file →
  read_csv uploaded_file = Return df →
  model_options !! selected_model ui = Some model →
  analyze_pressed ui = true →
  let run := analyze uploaded_file (query_text ui)
               (with_session st (configured ui model (session_state st))) in
  trace (main ui st) = sidebar_events ++ preview_events ui df ++ trace run ∧
  final (main ui st) = final run ∧
  result (main ui st) = result run.
Proof.
  intros Hf Hcsv Hmodel Hpressed. rewrite main_unfold.
  rewrite Hmodel, Hf, Hcsv, Hpressed. cbn zeta.
  by destruct (analyze _ _ _) as [[tr st'] o].
Qed.

Lemma uses_inputs_local (ui : widgets) (e : event) :
  external e = false → uses_inputs ui e.
Proof. by destruct e. Qed.

(** X15. In every run of [main], the key that opens the sandbox is the one
    entered as E2B key, and each completion request carries the key entered
    as Together key and the model that [model_options] gives for the
    selected name. *)
Theorem main_uses_inputs (ui : widgets) (st : state) :
  Forall (uses_inputs ui) (trace (main ui st)).
Proof.
  apply main_events; [apply uses_inputs_local|].
  intros f df model Hf Hcsv Hmodel Hpressed.
  destruct (configured_lookup ui model (session_state st))
    as (Hk1 & Hk2 & Hk3).
  apply (keeps_analyze
           (λ d, d !! "together_api_key" = Some (together_api_key_input ui) ∧
                 d !! "e2b_api_key" = Some (e2b_api_key_input ui) ∧
                 d !! "model_name" = Some model)
           (uses_inputs ui)); try done.
  - apply uses_inputs_local.
  - intros d api_key model' messages (Hd1 & _ & Hd3) Hkey Hmod. cbn.
    split; congruence.
  - intros d api_key (_ & Hd2 & _) Hkey. cbn. congruence.
Qed.

Lemma dict_setdefault_lookup_ne (key key' v : string)
    (d : gmap string string) :
  key ≠ key' → dict_setdefault key v d !! key' = d !! key'.
Proof.
  intros Hne. unfold dict_setdefault.
  destruct (d !! key); [done|]. by rewrite lookup_insert_ne.
Qed.

Lemma analyze_keeps_session (uploaded_file : UploadedFile) (query : string)
    (st : state) :
  session_state (final (analyze uploaded_file query st)) = session_state st.
Proof.
  by apply (keeps_analyze (λ _, True) (λ _, True)).
Qed.

(** X16. After a run of [main] with a known model, [st.session_state]
    holds under its three keys the two keys entered and the model selected
    in this run, whatever it held before and however the run ended, and
    every other entry is as it was. *)
Theorem main_session_state (ui : widgets) (st : state) (model : string) :
  model_options !! selected_model ui = Some model →
  session_state (final (main ui st)) !! "together_api_key"
    = Some (together_api_key_input ui) ∧
  session_state (final (main ui st)) !! "e2b_api_key"
    = Some (e2b_api_key_input ui) ∧
  session_state (final (main ui st)) !! "model_name" = Some model ∧
  ∀ key, key ≠ "together_api_key" → key ≠ "e2b_api_key" →
         key ≠ "model_name" →
         session_state (final (main ui st)) !! key = session_state st !! key.
Proof.
  intros Hmodel.
  assert (session_state (final (main ui st))
          = configured ui model (session_state st)) as ->.
  { rewrite main_unfold, Hmodel. cbn zeta.
    destruct (uploaded ui) as [f|]; [|done].
    destruct (read_csv f) as [df|e]; [|done].
    destruct (analyze_pressed ui); [|done].
    pose proof (analyze_keeps_session f (query_text ui)
                  (with_session st (configured ui model (session_state st))))
      as Hs.
    by destruct (analyze _ _ _) as [[tr st'] o]. }
  destruct (configured_lookup ui model (session_state st)) as (? & ? & ?).
  do 3 (split; [done|]). intros key Hn1 Hn2 Hn3. unfold configured, keyed.
  rewrite !lookup_insert_ne by done.
  by rewrite !dict_setdefault_lookup_ne.
Qed.

(** *** The sandbox session of a run *)

Lemma filter_session_nil (tr : list event) :
  Forall (λ e, session_event e = false) tr →
  filter (λ e, session_event e = true) tr = [].
Proof.
  induction 1 as [|e tr He _ IH]; [done|].
  rewrite filter_cons_False by congruence. done.
Qed.

Lemma in_sandbox_no_session_event (uploaded_file : UploadedFile)
    (query : string) (st : state) :
  filter (λ e, session_event e = true)
    (trace (in_sandbox uploaded_file query st)) = [].
Proof.
  apply filter_session_nil.
  apply (keeps_in_sandbox (λ _, True) (λ e, session_event e = false));
    try done.
  intros e He. by destruct e.
Qed.

Lemma local_no_session_event (ui : widgets) (df : DataFrame) :
  filter (λ e, session_event e = true)
    (sidebar_events ++ preview_events ui df) = [].
Proof. unfold preview_events. by destruct (show_full_dataset ui). Qed.

Lemma analyze_sandbox_events (uploaded_file : UploadedFile) (query : string)
    (st : state) (together_api_key e2b_api_key : string) :
  session_state st !! "together_api_key" = Some together_api_key →
  session_state st !! "e2b_api_key" = Some e2b_api_key →
  together_api_key ≠ "" → e2b_api_key ≠ "" →
  match sandbox_enter e2b_api_key (outside st) with
  | (Return _, _) =>
      filter (λ e, session_event e = true)
        (trace (analyze uploaded_file query st))
        = [SandboxEnter e2b_api_key; SandboxExit] ∧
      last (trace (analyze uploaded_file query st)) = Some SandboxExit
  | (Raise e, _) =>
      trace (analyze uploaded_file query st) = [SandboxEnter e2b_api_key] ∧
      result (analyze uploaded_file query st) = Raise e
  end.
Proof.
  intros Hk1 Hk2 Hne1 Hne2.
  rewrite (analyze_with_keys _ _ _ _ _ Hk1 Hk2 Hne1 Hne2).
  destruct (sandbox_enter e2b_api_key (outside st)) as [[[]|e] w] eqn:Henter.
  - destruct (with_sandbox_entered e2b_api_key
                (in_sandbox uploaded_file query) st w Henter) as [-> _].
    split; [|by rewrite app_comm_cons, last_snoc].
    rewrite filter_cons_True by done.
    by rewrite filter_app, in_sandbox_no_session_event.
  - by rewrite (with_sandbox_refused _ _ _ _ _ Henter).
Qed.

Lemma session_event_external (e : event) :
  session_event e = true → external e = true.
Proof. by destruct e. Qed.

(** X17. A run of [main] that opens a sandbox opens it with the E2B key
    entered, opens no other, and closes it as the last thing it does,
    however the upload, the turn and the rendering in between have ended.
    When the sandbox refuses to open, the run ends with that exception and
    nothing is closed. *)
Theorem main_closes_sandbox (ui : widgets) (st : state) (api_key : string) :
  SandboxEnter api_key ∈ trace (main ui st) →
  api_key = e2b_api_key_input ui ∧
  match sandbox_enter api_key (outside st) with
  | (Return _, _) =>
      filter (λ e, session_event e = true) (trace (main ui st))
        = [SandboxEnter api_key; SandboxExit] ∧
      last (trace (main ui st)) = Some SandboxExit
  | (Raise e, _) =>
      filter (λ e, session_event e = true) (trace (main ui st))
        = [SandboxEnter api_key] ∧
      result (main ui st) = Raise e
  end.
Proof.
  intros Hin.
  destruct (proj1 (Forall_forall _ _) (main_external_all ui st) _ Hin eq_refl)
    as (f & df & model & Hf & Hcsv & Hmodel & Hpressed & Hne1 & Hne2).
  destruct (main_reaches_analyze ui st f df model Hf Hcsv Hmodel Hpressed)
    as (Htr & _ & Hres).
  destruct (configured_lookup ui model (session_state st)) as (Hk1 & Hk2 & _).
  pose proof (analyze_sandbox_events f (query_text ui)
                (with_session st (configured ui model (session_state st)))
                _ _ Hk1 Hk2 Hne1 Hne2) as Hsandbox.
  cbn [with_session outside] in Hsandbox.
  assert (filter (λ e, session_event e = true) (trace (main ui st)) =
          filter (λ e, session_event e = true)
            (trace (analyze f (query_text ui)
                      (with_session st
                         (configured ui model (session_state st))))))
    as Hfilter.
  { rewrite Htr, app_assoc, filter_app, local_no_session_event. done. }
  assert (api_key = e2b_api_key_input ui) as ->.
  { assert (SandboxEnter api_key ∈
              filter (λ e, session_event e = true) (trace (main ui st)))
      as Hin' by (by apply list_elem_of_filter).
    rewrite Hfilter in Hin'.
    destruct (sandbox_enter (e2b_api_key_input ui) (outside st))
      as [[[]|e] w].
    - destruct Hsandbox as [Hs _]. rewrite Hs in Hin'.
      rewrite !elem_of_cons, elem_of_nil in Hin'.
      destruct Hin' as [[= ->]|[|]]; done.
    - destruct Hsandbox as [Hs _]. rewrite Hs in Hin'. cbn in Hin'.
      apply list_elem_of_singleton in Hin'. by injection Hin'. }
  split; [done|].
  destruct (sandbox_enter (e2b_api_key_input ui) (outside st)) as [[[]|e] w].
  - destruct Hsandbox as [Hs Hlast]. split; [by rewrite Hfilter|].
    rewrite Htr, !last_app, Hlast. done.
  - destruct Hsandbox as [Hs Hr]. split; [|by rewrite Hres].
    rewrite Hfilter, Hs. done.
Qed.

(** *** What runs inside the sandbox session *)

Lemma in_sandbox_upload_fails (uploaded_file : UploadedFile) (query : string)
    (st : state) (e : exn) (w : world) :
  files_write ("./" +:+ file_name uploaded_file) uploaded_file (outside st)
    = (Raise e, w) →
  in_sandbox uploaded_file query st =
    ([FilesWrite ("./" +:+ file_name uploaded_file) uploaded_file;
      StError ("Error during file upload: " +:+ exn_str e)],
     with_outside st w, Raise e).
Proof.
  intros Hwrite. unfold in_sandbox, upload_dataset, try_except. run_unfold.
  cbn -[chat_with_llm for_each]. by rewrite Hwrite.
Qed.

Lemma in_sandbox_turn (uploaded_file : UploadedFile) (query : string)
    (st : state) (w : world) (tr : list event) (st' : state)
    (code_results : option (list Result)) (llm_response : string) :
  files_write ("./" +:+ file_name uploaded_file) uploaded_file (outside st)
    = (Return (), w) →
  chat_with_llm query ("./" +:+ file_name uploaded_file) (with_outside st w)
    = (tr, st', Return (code_results, llm_response)) →
  trace (in_sandbox uploaded_file query st) =
    FilesWrite ("./" +:+ file_name uploaded_file) uploaded_file :: tr ++
    [StSubheader "AI Response:"; StWrite llm_response] ++
    (if results_truthy code_results
     then trace (for_each display (default [] code_results) st') else []).
Proof.
  intros Hwrite Hchat. unfold in_sandbox, upload_dataset, try_except.
  run_unfold. cbn -[chat_with_llm for_each]. rewrite Hwrite.
  cbn -[chat_with_llm for_each]. unfold with_outside in Hchat.
  rewrite Hchat. cbn -[chat_with_llm for_each].
  destruct (results_truthy code_results); [|done].
  by destruct (for_each _ _ _) as [[tr' st''] o].
Qed.

(** X18. When the write of the dataset into the sandbox raises, a run of
    [main] shows the error with [st.error], asks for no completion, closes
    the sandbox and ends with the exception of the write (or with that of
    the closing, if the closing raises too). *)
Theorem main_upload_failure (ui : widgets) (st : state)
    (uploaded_file : UploadedFile) (df : DataFrame) (model : string)
    (e : exn) (w1 w2 : world) :
  uploaded ui = Some uploaded_file →
  read_csv uploaded_file = Return df →
  model_options !! selected_model ui = Some model →
  analyze_pressed ui = true →
  together_api_key_input ui ≠ "" → e2b_api_key_input ui ≠ "" →
  sandbox_enter (e2b_api_key_input ui) (outside st) = (Return (), w1) →
  files_write ("./" +:+ file_name uploaded_file) uploaded_file w1
    = (Raise e, w2) →
  trace (main ui st) =
    sidebar_events ++ preview_events ui df ++
    [SandboxEnter (e2b_api_key_input ui);
     FilesWrite ("./" +:+ file_name uploaded_file) uploaded_file;
     StError ("Error during file upload: " +:+ exn_str e);
     SandboxExit] ∧
  result (main ui st) =
    match sandbox_exit w2 with
    | (Return _, _) => Raise e
    | (Raise e', _) => Raise e'
    end.
Proof.
  intros Hf Hcsv Hmodel Hpressed Hne1 Hne2 Henter Hwrite.
  destruct (main_reaches_analyze ui st _ _ _ Hf Hcsv Hmodel Hpressed)
    as (-> & _ & ->).
  destruct (configured_lookup ui model (session_state st)) as (Hk1 & Hk2 & _).
  rewrite (analyze_with_keys _ _
             (with_session st (configured ui model (session_state st)))
             _ _ Hk1 Hk2 Hne1 Hne2).
  destruct (with_sandbox_entered (e2b_api_key_input ui)
              (in_sandbox uploaded_file (query_text ui))
              (with_session st (configured ui model (session_state st)))
              w1 Henter) as [-> ->].
  rewrite (in_sandbox_upload_fails _ _ _ e w2) by done.
  cbn [trace result final fst snd with_outside outside app].
  split; [done|]. by destruct (sandbox_exit w2) as [[[]|e'] w3].
Qed.

(** X19. When the turn returns, a run of [main] writes the heading and the
    reply to the page after the events of the turn and before any result,
    renders results only when the turn returned a non-empty list of them,
    and closes the sandbox last. *)
Theorem main_shows_reply (ui : widgets) (st : state)
    (uploaded_file : UploadedFile) (df : DataFrame) (model : string)
    (w1 w2 : world) (tr : list event) (st' : state)
    (code_results : option (list Result)) (llm_response : string) :
  uploaded ui = Some uploaded_file →
  read_csv uploaded_file = Return df →
  model_options !! selected_model ui = Some model →
  analyze_pressed ui = true →
  together_api_key_input ui ≠ "" → e2b_api_key_input ui ≠ "" →
  sandbox_enter (e2b_api_key_input ui) (outside st) = (Return (), w1) →
  files_write ("./" +:+ file_name uploaded_file) uploaded_file w1
    = (Return (), w2) →
  chat_with_llm (query_text ui) ("./" +:+ file_name uploaded_file)
    (with_outside
       (with_session st (configured ui model (session_state st))) w2)
    = (tr, st', Return (code_results, llm_response)) →
  trace (main ui st) =
    sidebar_events ++ preview_events ui df ++
    [SandboxEnter (e2b_api_key_input ui);
     FilesWrite ("./" +:+ file_name uploaded_file) uploaded_file] ++
    tr ++
    [StSubheader "AI Response:"; StWrite llm_response] ++
    (match code_results with
     | Some (res :: rest) => trace (for_each display (res :: rest) st')
     | _ => []
     end) ++
    [SandboxExit].
Proof.
  intros Hf Hcsv Hmodel Hpressed Hne1 Hne2 Henter Hwrite Hchat.
  destruct (main_reaches_analyze ui st _ _ _ Hf Hcsv Hmodel Hpressed)
    as (-> & _ & _).
  destruct (configured_lookup ui model (session_state st)) as (Hk1 & Hk2 & _).
  rewrite (analyze_with_keys _ _
             (with_session st (configured ui model (session_state st)))
             _ _ Hk1 Hk2 Hne1 Hne2).
  destruct (with_sandbox_entered (e2b_api_key_input ui)
              (in_sandbox uploaded_file (query_text ui))
              (with_session st (configured ui model (session_state st)))
              w1 Henter) as [-> _].
  rewrite (in_sandbox_turn _ _ _ w2 tr st' code_results llm_response)
    by done.
  do 2 f_equal. cbn [app]. do 2 f_equal. rewrite <- !app_assoc.
  f_equal. cbn [app]. do 2 f_equal.
  by destruct code_results as [[|res rest]|].
Qed.

End Main.

(** ** The further properties at concrete inputs *)

Section MoreWitnesses.
Import Sample.
#[local] Existing Instance Sample.env.

Lemma match_code_blocks_no_closing_fence_witness :
  match_code_blocks two_blocks ≠ "a" +:+ fence_close +:+ "b".
Proof. apply (match_code_blocks_no_closing_fence two_blocks "a" "b"). Defined.

Lemma code_interpret_none_iff_error_witness :
  (result (code_interpret failing_code st0) = Return None ↔
   is_Some (Some zero_division)) ∧
  (Some zero_division = None →
   result (code_interpret failing_code st0) = Return (Some [])).
Proof.
  apply (code_interpret_none_iff_error failing_code st0 "partial" ""
           {| results := []; error := Some zero_division |} []).
  reflexivity.
Defined.

Lemma chat_with_llm_runs_extracted_code_witness :
  ∃ api_key model text rest w,
    session_state st0 !! "together_api_key" = Some api_key ∧
    session_state st0 !! "model_name" = Some model ∧
    completions_create api_key model
      (chat_messages (fenced "print(1+1)") "./data.csv") (outside st0)
      = (Return (Some text :: rest), w) ∧
    "print(1+1)" = match_code_blocks text ∧ "print(1+1)" ≠ "".
Proof.
  apply (chat_with_llm_runs_extracted_code (fenced "print(1+1)")
           "./data.csv" st0 "print(1+1)").
  rewrite chat_with_llm_print. cbn [trace fst].
  rewrite !elem_of_cons. tauto.
Defined.

Lemma chat_with_llm_returns_witness :
  ∃ api_key model rest w,
    session_state st0 !! "together_api_key" = Some api_key ∧
    session_state st0 !! "model_name" = Some model ∧
    completions_create api_key model
      (chat_messages (fenced "print(1+1)") "./data.csv") (outside st0)
      = (Return (Some (fenced "print(1+1)") :: rest), w) ∧
    ((match_code_blocks (fenced "print(1+1)") = "" ∧
      Some [] = (None : option (list Result))) ∨
     (match_code_blocks (fenced "print(1+1)") ≠ "" ∧
      ∃ stdout_capture stderr_capture exec w',
        run_code (match_code_blocks (fenced "print(1+1)")) w
          = (Return (stdout_capture, stderr_capture, exec), w') ∧
        Some [] = returned_results exec)).
Proof.
  apply (chat_with_llm_returns (fenced "print(1+1)") "./data.csv" st0
           (Some []) (fenced "print(1+1)")).
  by rewrite chat_with_llm_print.
Defined.

Lemma chat_with_llm_empty_block_witness :
  result (chat_with_llm (fenced "") "./data.csv" st0)
    = Return (None, fenced "").
Proof.
  destruct (search_pattern_Some (fenced "") [""])
    as (pre & body & post & Hfirst & Hbody); [vm_compute; reflexivity|].
  injection Hbody as <-.
  rewrite (chat_with_llm_empty_block (fenced "") "./data.csv" st0
             "tk" "deepseek-ai/DeepSeek-V3" (fenced "") pre post [] []);
    [reflexivity|reflexivity|reflexivity|reflexivity|exact Hfirst].
Defined.

Lemma for_each_display_in_order_witness :
  rendered_as <$> trace (for_each display [chart; blank_figure] st0)
    = [Some image; Some figure] ∧
  final (for_each display [chart; blank_figure] st0) = st0 ∧
  result (for_each display [chart; blank_figure] st0) = Return ().
Proof.
  apply (for_each_display_in_order [chart; blank_figure] st0).
  intros res Hin _. rewrite !elem_of_cons, elem_of_nil in Hin.
  destruct Hin as [->|[->|[]]]; eexists; reflexivity.
Defined.

Lemma main_external_requires_witness :
  ∃ uploaded_file df model,
    uploaded (ui "tk" "ek" (fenced "print(1+1)")) = Some uploaded_file ∧
    read_csv uploaded_file = Return df ∧
    model_options !! selected_model (ui "tk" "ek" (fenced "print(1+1)"))
      = Some model ∧
    analyze_pressed (ui "tk" "ek" (fenced "print(1+1)")) = true ∧
    together_api_key_input (ui "tk" "ek" (fenced "print(1+1)")) ≠ "" ∧
    e2b_api_key_input (ui "tk" "ek" (fenced "print(1+1)")) ≠ "".
Proof.
  apply (main_external_requires (ui "tk" "ek" (fenced "print(1+1)")) st0
           (RunCode "print(1+1)")); [|reflexivity].
  eapply (list_elem_of_filter (λ e, bool_decide (external e = true))).
  rewrite main_path_events. rewrite !elem_of_cons. tauto.
Defined.

Lemma main_session_state_witness :
  session_state (final (main (ui "tk2" "ek2" "q") st0)) !! "together_api_key"
    = Some "tk2" ∧
  session_state (final (main (ui "tk2" "ek2" "q") st0)) !! "e2b_api_key"
    = Some "ek2" ∧
  session_state (final (main (ui "tk2" "ek2" "q") st0)) !! "model_name"
    = Some "deepseek-ai/DeepSeek-V3" ∧
  ∀ key, key ≠ "together_api_key" → key ≠ "e2b_api_key" →
         key ≠ "model_name" →
         session_state (final (main (ui "tk2" "ek2" "q") st0)) !! key
         = session_state st0 !! key.
Proof.
  apply (main_session_state (ui "tk2" "ek2" "q") st0
           "deepseek-ai/DeepSeek-V3").
  vm_compute. reflexivity.
Defined.

Lemma main_closes_sandbox_witness :
  filter (λ e, session_event e = true)
    (trace (main (ui "tk" "ek" (fenced "print(1+1)")) st0))
    = [SandboxEnter "ek"; SandboxExit] ∧
  last (trace (main (ui "tk" "ek" (fenced "print(1+1)")) st0))
    = Some SandboxExit.
Proof.
  apply (main_closes_sandbox (ui "tk" "ek" (fenced "print(1+1)")) st0 "ek").
  eapply (list_elem_of_filter (λ e, bool_decide (external e = true))).
  rewrite main_path_events. rewrite !elem_of_cons. tauto.
Defined.

Lemma main_shows_reply_witness :
  trace (main (ui "tk" "ek" (fenced "print(1+1)")) st0) =
    sidebar_events ++
    preview_events (ui "tk" "ek" (fenced "print(1+1)")) "a,b" ++
    [SandboxEnter "ek"; FilesWrite "./data.csv" data_csv] ++
    [StSpinner "Getting response from Together AI LLM model...";
     CompletionsCreate "tk" "deepseek-ai/DeepSeek-V3"
       (chat_messages (fenced "print(1+1)") "./data.csv");
     StSpinner "Executing code in E2B sandbox...";
     RunCode "print(1+1)";
     Print sys_stdout ("[Code Interpreter Output]" +:+ nl);
     Print sys_stdout ("2" +:+ nl)] ++
    [StSubheader "AI Response:"; StWrite (fenced "print(1+1)")] ++
    [] ++ [SandboxExit].
Proof.
  apply (main_shows_reply (H := Sample.env)
           (ui "tk" "ek" (fenced "print(1+1)")) st0
           data_csv "a,b" "deepseek-ai/DeepSeek-V3" [] ["./data.csv"] _
           (with_outside
              (with_session st0
                 (configured (ui "tk" "ek" (fenced "print(1+1)"))
                    "deepseek-ai/DeepSeek-V3" (session_state st0)))
              ["./data.csv"])
           (Some []) (fenced "print(1+1)"));
    [reflexivity|reflexivity|vm_compute; reflexivity|reflexivity|
     discriminate|discriminate|reflexivity|reflexivity|].
  vm_compute. reflexivity.
Defined.

End MoreWitnesses.

Section FaultyWitnesses.
#[local] Existing Instance Faulty.env.

(** The completion service refuses the key, then the sandbox hangs. *)
Lemma chat_with_llm_service_failure_witness :
  result (chat_with_llm "q" "./data.csv" (Faulty.st "expired" "ek" "m"))
    = Raise (Faulty.raised "AuthenticationError") ∧
  result (chat_with_llm (Sample.fenced "hang") "./data.csv"
            (Faulty.st "tk" "ek" "m"))
    = Raise (Faulty.raised "TimeoutException").
Proof.
  split.
  - destruct (chat_with_llm_service_failure "q" "./data.csv"
                (Faulty.st "expired" "ek" "m") "expired" "m"
                (Faulty.raised "AuthenticationError"))
      as [Hraise _]; [reflexivity|reflexivity|].
    by rewrite (Hraise []).
  - destruct (chat_with_llm_service_failure (Sample.fenced "hang")
                "./data.csv" (Faulty.st "tk" "ek" "m") "tk" "m"
                (Faulty.raised "TimeoutException"))
      as [_ Hraise]; [reflexivity|reflexivity|].
    rewrite (Hraise (Sample.fenced "hang") [] [] []);
      [reflexivity|reflexivity|vm_compute; discriminate|
       vm_compute; reflexivity].
Defined.

Lemma chat_with_llm_unusable_response_witness :
  ∃ e, result (chat_with_llm "q" "./data.csv" (Faulty.st "tk" "ek" "silent"))
         = Raise e ∧
       exn_class e = "IndexError".
Proof.
  apply (chat_with_llm_unusable_response "q" "./data.csv"
           (Faulty.st "tk" "ek" "silent") "tk" "silent" [] []);
    [reflexivity|reflexivity|reflexivity|by left].
Defined.

Lemma for_each_display_stops_witness :
  rendered_as <$>
    trace (for_each display
             ([Sample.chart] ++ Faulty.broken_image :: [Sample.blank_figure])
             (Faulty.st "tk" "ek" "m"))
    = [Some image] ∧
  result (for_each display
            ([Sample.chart] ++ Faulty.broken_image :: [Sample.blank_figure])
            (Faulty.st "tk" "ek" "m"))
    = Raise (Faulty.raised "TypeError").
Proof.
  apply (for_each_display_stops [Sample.chart] [Sample.blank_figure]
           Faulty.broken_image (Faulty.st "tk" "ek" "m")
           (Faulty.raised "TypeError")).
  - intros r Hin _. apply list_elem_of_singleton in Hin as ->.
    eexists. reflexivity.
  - vm_compute. reflexivity.
  - reflexivity.
Defined.

Lemma main_upload_failure_witness :
  trace (main (Faulty.ui "tk" "ek" Faulty.locked_csv "q")
           (Faulty.st "" "" "")) =
    sidebar_events ++
    preview_events (Faulty.ui "tk" "ek" Faulty.locked_csv "q") "a,b" ++
    [SandboxEnter "ek";
     FilesWrite "./locked.csv" Faulty.locked_csv;
     StError ("Error during file upload: " +:+
              exn_str (Faulty.raised "SandboxException"));
     SandboxExit] ∧
  result (main (Faulty.ui "tk" "ek" Faulty.locked_csv "q")
            (Faulty.st "" "" ""))
    = Raise (Faulty.raised "SandboxException").
Proof.
  apply (main_upload_failure (H := Faulty.env)
           (Faulty.ui "tk" "ek" Faulty.locked_csv "q")
           (Faulty.st "" "" "") Faulty.locked_csv "a,b"
           "deepseek-ai/DeepSeek-V3" (Faulty.raised "SandboxException")
           [] []);
    [reflexivity|reflexivity|vm_compute; reflexivity|reflexivity|
     discriminate|discriminate|reflexivity|reflexivity].
Defined.

End FaultyWitnesses.
